(** * ClipBoardPro: the clipboard history store of [useClipboardManager]

    A shallow embedding of [src/useClipboardManager.ts].  The hook keeps a
    list of [ClipboardEntry] in React state, rewrites it through
    [saveHistory] (sort, write to [localStorage], set state) and reports
    through [showNotification].  Here the hook's state, the storage cell it
    writes and the effects it issues are one record, [Store], threaded
    explicitly through every operation.  What the environment supplies is
    a parameter of the operation that asks for it: the value of
    [Date.now()], the value of [crypto.randomUUID()], whether
    [localStorage.setItem] throws. *)

From Stdlib Require Import List ZArith NArith Arith Bool String Ascii Lia.
From Stdlib Require Import Permutation Sorting.Sorted.
Import ListNotations.

Set Implicit Arguments.
Open Scope string_scope.
Open Scope list_scope.
Open Scope nat_scope.

(** ** JavaScript primitives used by the hook *)

Module JS.

(** A JavaScript string is a sequence of UTF-16 code units. *)
Definition jsstring := list N.

(** An ASCII literal as a JavaScript string. *)
Definition lit (s : string) : jsstring :=
  List.map N_of_ascii (list_ascii_of_string s).

Definition jsstring_eqb (a b : jsstring) : bool :=
  if list_eq_dec N.eq_dec a b then true else false.

(** The code units [String.prototype.trim] strips: ECMAScript's
    WhiteSpace and LineTerminator productions (all in the BMP). *)
Definition isWhiteSpace (c : N) : bool :=
  ((9 <=? c) && (c <=? 13) || (c =? 32) || (c =? 160) || (c =? 5760)
   || (8192 <=? c) && (c <=? 8202) || (c =? 8232) || (c =? 8233)
   || (c =? 8239) || (c =? 8287) || (c =? 12288) || (c =? 65279))%N.

Fixpoint trimStart (s : jsstring) : jsstring :=
  match s with
  | c :: s' => if isWhiteSpace c then trimStart s' else s
  | [] => []
  end.

Definition trimEnd (s : jsstring) : jsstring := rev (trimStart (rev s)).

Definition trim (s : jsstring) : jsstring := trimEnd (trimStart s).

Section Arrays.
Variable A : Type.

(** [Array.prototype.findIndex]; [None] stands for the result [-1]. *)
Fixpoint findIndex (p : A -> bool) (l : list A) : option nat :=
  match l with
  | [] => None
  | x :: l' =>
      if p x then Some 0
      else match findIndex p l' with
           | Some i => Some (S i)
           | None => None
           end
  end.

(** [l.slice(from, to)] and [l.slice(from)] for indices within
    [0 .. l.length], the only ones the hook passes. *)
Definition slice (l : list A) (from to : nat) : list A :=
  firstn (to - from) (skipn from l).

Definition sliceFrom (l : list A) (from : nat) : list A := skipn from l.

(** [Array.prototype.sort] with a comparator.  The comparator the hook
    supplies is a consistent one (a total preorder on the pair of pin
    flag and timestamp); for such a comparator ECMAScript fixes the
    result: the permutation in sorted order that keeps elements
    comparing equal in their original order.  The stable insertion sort
    computes it. *)
Variable cmp : A -> A -> Z.

Fixpoint insertSorted (x : A) (l : list A) : list A :=
  match l with
  | [] => [x]
  | y :: l' =>
      if (cmp x y <=? 0)%Z then x :: l else y :: insertSorted x l'
  end.

Fixpoint sort (l : list A) : list A :=
  match l with
  | [] => []
  | x :: l' => insertSorted x (sort l')
  end.

(** [a] may stand before [b] in a list sorted by [cmp]. *)
Definition cmp_le (a b : A) : Prop := (cmp a b <= 0)%Z.
End Arrays.

End JS.

Import JS.

(** ** Data model ([types.ts], as the hook uses it) *)

Record ClipboardEntry : Type := mkEntry {
  id : string;
  text : jsstring;
  timestamp : Z;
  pinned : bool
}.

Definition withTimestamp (e : ClipboardEntry) (t : Z) : ClipboardEntry :=
  {| id := id e; text := text e; timestamp := t; pinned := pinned e |}.

Definition withPinned (e : ClipboardEntry) (p : bool) : ClipboardEntry :=
  {| id := id e; text := text e; timestamp := timestamp e; pinned := p |}.

(** What [localStorage.getItem(STORAGE_KEY)] can hold: the JSON written by
    [saveHistory], the empty string (falsy), or text [JSON.parse] or the
    following [sort] call throws on. *)
Inductive StoredValue : Type :=
| SnapshotJSON (entries : list ClipboardEntry)
| EmptyString
| Unparsable.

(** The effects the hook issues, in the order it issues them. *)
Inductive Effect : Type :=
| SetItem (snapshot : list ClipboardEntry) (succeeded : bool)
| ConsoleError (message : string)
| Notification (title message : string).

Record Store : Type := mkStore {
  history : list ClipboardEntry;
  isLoading : bool;
  error : option string;
  localStorage : option StoredValue;
  effects : list Effect
}.

Definition initialStore : Store :=
  {| history := []; isLoading := true; error := None;
     localStorage := None; effects := [] |}.

Definition setHistory (h : list ClipboardEntry) (s : Store) : Store :=
  {| history := h; isLoading := isLoading s; error := error s;
     localStorage := localStorage s; effects := effects s |}.

Definition setIsLoading (b : bool) (s : Store) : Store :=
  {| history := history s; isLoading := b; error := error s;
     localStorage := localStorage s; effects := effects s |}.

Definition setError (e : option string) (s : Store) : Store :=
  {| history := history s; isLoading := isLoading s; error := e;
     localStorage := localStorage s; effects := effects s |}.

Definition setItem (v : StoredValue) (s : Store) : Store :=
  {| history := history s; isLoading := isLoading s; error := error s;
     localStorage := Some v; effects := effects s |}.

Definition emit (e : Effect) (s : Store) : Store :=
  {| history := history s; isLoading := isLoading s; error := error s;
     localStorage := localStorage s; effects := effects s ++ [e] |}.

(** ** The hook *)

Definition b2z (b : bool) : Z := if b then 1%Z else 0%Z.

(** [(a, b) => (b.pinned ? 1 : 0) - (a.pinned ? 1 : 0) || b.timestamp - a.timestamp] *)
Definition compareEntries (a b : ClipboardEntry) : Z :=
  let d := (b2z (pinned b) - b2z (pinned a))%Z in
  if (d =? 0)%Z then (timestamp b - timestamp a)%Z else d.

Definition sortHistory (l : list ClipboardEntry) : list ClipboardEntry :=
  sort compareEntries l.

Definition showNotification (message : string) (s : Store) : Store :=
  emit (Notification "Clipboard Pro" message) s.

Definition loadHistory (s : Store) : Store :=
  let s := setError None (setIsLoading true s) in
  let s :=
    match localStorage s with
    | Some (SnapshotJSON storedHistory) =>
        setHistory (sortHistory storedHistory) s
    | Some EmptyString | None => setHistory [] s
    | Some Unparsable =>
        setHistory []
          (setError (Some "Failed to load clipboard history.")
             (emit (ConsoleError "Error loading history from localStorage:") s))
    end in
  setIsLoading false s.

Definition saveError : string :=
  "Failed to save clipboard history. Storage might be full.".

(** [saveOk] is the outcome of [localStorage.setItem]: [false] when it
    throws (quota exceeded, storage disabled). *)
Definition saveHistory (updatedHistory : list ClipboardEntry)
    (saveOk : bool) (s : Store) : Store :=
  let sortedHistory := sortHistory updatedHistory in
  let s :=
    if saveOk then
      setItem (SnapshotJSON sortedHistory) (emit (SetItem sortedHistory true) s)
    else
      setError (Some saveError)
        (emit (ConsoleError "Error saving history to localStorage:")
           (emit (SetItem sortedHistory false) s)) in
  setHistory sortedHistory s.

(** [!text || text.trim() === ""] *)
Definition isBlank (t : jsstring) : bool :=
  match t with
  | [] => true
  | _ => match trim t with [] => true | _ => false end
  end.

(** The texts handed to [showNotification]. *)
Definition removedMessage : string := "Item removed from history.".

Definition clearedMessage : string :=
  "Clipboard history cleared (pinned items remain).".

Section Manager.

(** [MAX_HISTORY_ITEMS] comes from [constants.ts]. *)
Variable MAX_HISTORY_ITEMS : nat.

(** The state updater of [addEntry], up to the list it hands to
    [saveHistory].  [now] is the value of [Date.now()] and [uuid] the
    value of [crypto.randomUUID()]. *)
Definition addEntryFinal (t : jsstring) (now : Z) (uuid : string)
    (prevHistory : list ClipboardEntry) : list ClipboardEntry :=
  let existingEntryIndex :=
    findIndex (fun entry => jsstring_eqb (text entry) t) prevHistory in
  let newHistory :=
    match existingEntryIndex with
    | Some i =>
        match nth_error prevHistory i with
        | Some existingEntry =>
            withTimestamp existingEntry now
              :: slice prevHistory 0 i ++ sliceFrom prevHistory (i + 1)
        | None => prevHistory
        end
    | None =>
        {| id := uuid; text := t; timestamp := now; pinned := false |}
          :: prevHistory
    end in
  let unpinnedItems := filter (fun item => negb (pinned item)) newHistory in
  let pinnedItems := filter (fun item => pinned item) newHistory in
  let unpinnedItems :=
    if MAX_HISTORY_ITEMS <? List.length unpinnedItems
    then slice unpinnedItems 0 MAX_HISTORY_ITEMS
    else unpinnedItems in
  pinnedItems ++ unpinnedItems.

(** One call of [addEntry] hands React two values for the same state: the
    updater calls [saveHistory(finalHistory)], which calls
    [setHistory(sortedHistory)], and then returns [finalHistory].  Which of
    the two the state holds afterwards depends on the order in which React
    applies the two updates, which the hook does not fix: [returnedLast]
    says that it is the updater's return value.  Storage, error and effects
    are those of [saveHistory] either way.
    [addEntryFinal_sorted] below shows that the two lists are one and the
    same whenever the history was in canonical order and [now] is not
    earlier than the timestamps in it. *)
Definition addEntry (t : jsstring) (now : Z) (uuid : string)
    (saveOk returnedLast : bool) (s : Store) : Store :=
  if isBlank t then s
  else
    let finalHistory := addEntryFinal t now uuid (history s) in
    let s' := saveHistory finalHistory saveOk s in
    if returnedLast then setHistory finalHistory s' else s'.

Definition deleteEntry (i : string) (saveOk : bool) (s : Store) : Store :=
  let updatedHistory :=
    filter (fun entry => negb (String.eqb (id entry) i)) (history s) in
  let s' := saveHistory updatedHistory saveOk s in
  showNotification removedMessage s'.

Definition clearHistory (saveOk : bool) (s : Store) : Store :=
  let pinnedItems := filter (fun item => pinned item) (history s) in
  let s' := saveHistory pinnedItems saveOk s in
  if existsb (fun item => negb (pinned item)) (history s)
  then showNotification clearedMessage s'
  else s'.

Definition togglePinEntry (i : string) (saveOk : bool) (s : Store) : Store :=
  match findIndex (fun entry => String.eqb (id entry) i) (history s) with
  | None => s
  | Some entryIndex =>
      match nth_error (history s) entryIndex with
      | None => s
      | Some entry =>
          let updatedEntry := withPinned entry (negb (pinned entry)) in
          let updatedHistory :=
            slice (history s) 0 entryIndex
              ++ updatedEntry :: sliceFrom (history s) (entryIndex + 1) in
          let s' := saveHistory updatedHistory saveOk s in
          showNotification
            (if pinned updatedEntry then "Item pinned." else "Item unpinned.")
            s'
      end
  end.

(** ** Runs of the store *)

Inductive Op : Type :=
| AddEntry (t : jsstring) (now : Z) (uuid : string) (returnedLast : bool)
| DeleteEntry (i : string)
| ClearHistory
| TogglePinEntry (i : string)
| LoadHistory.

Definition step (o : Op) (saveOk : bool) (s : Store) : Store :=
  match o with
  | AddEntry t now uuid returnedLast =>
      addEntry t now uuid saveOk returnedLast s
  | DeleteEntry i => deleteEntry i saveOk s
  | ClearHistory => clearHistory saveOk s
  | TogglePinEntry i => togglePinEntry i saveOk s
  | LoadHistory => loadHistory s
  end.

Definition run (ops : list (Op * bool)) (s : Store) : Store :=
  fold_left (fun s o => step (fst o) (snd o) s) ops s.

(** [togglePinEntry] would turn a pinned entry into an unpinned one. *)
Definition unpins (o : Op) (s : Store) : bool :=
  match o with
  | TogglePinEntry i =>
      match findIndex (fun entry => String.eqb (id entry) i) (history s) with
      | Some entryIndex =>
          match nth_error (history s) entryIndex with
          | Some entry => pinned entry
          | None => false
          end
      | None => false
      end
  | _ => false
  end.

(** [Date.now()] did not run backwards: the time of an [addEntry] is not
    earlier than the timestamps in the history.  (Asked only of calls whose
    updater's return value is the state: the list [saveHistory] sets is
    sorted whatever the clock does.) *)
Definition clockSteady (o : Op) (s : Store) : Prop :=
  match o with
  | AddEntry _ now _ true =>
      forall e, In e (history s) -> (timestamp e <= now)%Z
  | _ => True
  end.

(** The states of runs from the initial store (empty history, nothing
    stored) whose steps all pass [guard].  A later session of the hook is a
    [LoadHistory] step: it replaces the history by what the storage cell
    holds. *)
Inductive reachableVia (guard : Op -> Store -> Prop) : Store -> Prop :=
| reachable_initial : reachableVia guard initialStore
| reachable_step : forall o saveOk s,
    reachableVia guard s -> guard o s ->
    reachableVia guard (step o saveOk s).

(** Any run. *)
Definition reachable : Store -> Prop := reachableVia (fun _ _ => True).

(** Runs in which no [togglePinEntry] unpins an entry. *)
Definition reachableWithoutUnpin : Store -> Prop :=
  reachableVia (fun o s => unpins o s = false).

(** Runs during which the clock did not run backwards. *)
Definition reachableSteady : Store -> Prop := reachableVia clockSteady.

End Manager.

(** ** Derived notions used in the statements *)

(** Invariant I1: the list is in the order of the comparator. *)
Definition ordered (l : list ClipboardEntry) : Prop :=
  StronglySorted (cmp_le compareEntries) l.

(** Entries with the same pin flag and the same timestamp. *)
Definition sameKey (p : bool) (t : Z) (e : ClipboardEntry) : bool :=
  Bool.eqb (pinned e) p && (timestamp e =? t)%Z.

(** The messages handed to [showNotification], oldest first. *)
Fixpoint notifications (l : list Effect) : list string :=
  match l with
  | [] => []
  | Notification _ m :: l' => m :: notifications l'
  | _ :: l' => notifications l'
  end.

Definition unpinnedCount (l : list ClipboardEntry) : nat :=
  List.length (filter (fun item => negb (pinned item)) l).

(** The operations that rewrite the history; [loadHistory] only reads. *)
Definition mutating (o : Op) : bool :=
  match o with
  | LoadHistory => false
  | _ => true
  end.

(** The eviction step of [addEntry]: the pinned entries of [newHistory],
    then its unpinned entries cut down to [cap]. *)
Definition capUnpinned (cap : nat) (newHistory : list ClipboardEntry)
  : list ClipboardEntry :=
  filter (fun item => pinned item) newHistory
    ++ firstn cap (filter (fun item => negb (pinned item)) newHistory).

(** A property of entry lists holds of the history and of the stored
    snapshot. *)
Definition holdsOf (P : list ClipboardEntry -> Prop) (s : Store) : Prop :=
  P (history s) /\
  (forall l, localStorage s = Some (SnapshotJSON l) -> P l).

(** What a promotion by [addEntry] leaves: one entry with the text of
    [E], namely [E] with its timestamp set to [now], and nothing that was
    not in the history before. *)
Definition promoted (before after : list ClipboardEntry)
    (E : ClipboardEntry) (now : Z) : Prop :=
  filter (fun x => jsstring_eqb (text x) (text E)) after
  = [withTimestamp E now] /\
  (forall x, In x after -> x = withTimestamp E now \/ In x before) /\
  List.length after <= List.length before.

(** What [addEntry] must leave when the text of [E] is added again: one
    entry with that text, carrying the identifier and the pin flag of [E]
    and the timestamp [now]; nothing that was not in the history before;
    no more entries than before. *)
Definition promotedEntry (before after : list ClipboardEntry)
    (E : ClipboardEntry) (now : Z) : Prop :=
  exists E',
    id E' = id E /\ text E' = text E /\ pinned E' = pinned E /\
    timestamp E' = now /\
    In E' after /\
    (forall x, In x after -> text x = text E -> x = E') /\
    filter (fun x => jsstring_eqb (text x) (text E)) after = [E'] /\
    (forall x, In x after -> x = E' \/ In x before) /\
    List.length after <= List.length before.

(** The two early returns of the mutating operations: [addEntry] on a text
    made of white space only (the empty text included) and
    [togglePinEntry] on an identifier no entry carries. *)
Definition returnsEarly (o : Op) (s : Store) : Prop :=
  match o with
  | AddEntry t _ _ _ => forall c, In c t -> isWhiteSpace c = true
  | TogglePinEntry i => forall e, In e (history s) -> id e <> i
  | _ => False
  end.

(** What the list an operation computes holds, next to the history it
    started from. *)
Definition computedBy (cap : nat) (o : Op) (before after : list ClipboardEntry)
  : Prop :=
  match o with
  | AddEntry t now _ _ =>
      unpinnedCount after <= cap /\
      forall e, In e after ->
                In e before \/ (text e = t /\ timestamp e = now)
  | DeleteEntry i =>
      forall e, In e after <-> In e before /\ id e <> i
  | ClearHistory =>
      forall e, In e after <-> In e before /\ pinned e = true
  | TogglePinEntry i =>
      List.length after = List.length before /\
      exists e,
        In e before /\ id e = i /\
        In {| id := id e; text := text e; timestamp := timestamp e;
              pinned := negb (pinned e) |} after
  | LoadHistory => True
  end.

(** The second example scenario of the specification. *)
Definition pinScenario (ida idb idc idd ide : string) (t1 t2 t3 t4 t5 : Z)
    (saveOk returnedLast : nat -> bool) : list (Op * bool) :=
  [ (AddEntry (lit "a") t1 ida (returnedLast 1), saveOk 1);
    (AddEntry (lit "b") t2 idb (returnedLast 2), saveOk 2);
    (AddEntry (lit "c") t3 idc (returnedLast 3), saveOk 3);
    (TogglePinEntry ida, saveOk 4);
    (AddEntry (lit "d") t4 idd (returnedLast 5), saveOk 5);
    (AddEntry (lit "e") t5 ide (returnedLast 6), saveOk 6) ].

(** Fill the unpinned partition up to a cap of three next to a pinned
    entry, then unpin that entry. *)
Definition unpinScenario : list (Op * bool) :=
  [ (AddEntry (lit "a") 1 "id-a" true, true);
    (TogglePinEntry "id-a", true);
    (AddEntry (lit "b") 2 "id-b" true, true);
    (AddEntry (lit "c") 3 "id-c" true, true);
    (AddEntry (lit "d") 4 "id-d" true, true);
    (TogglePinEntry "id-a", true) ].

(** A small store used to instantiate the statements: "x" added at time
    10, "y" at time 20, then "y" pinned. *)
Definition exampleStore : Store :=
  run 3
    [ (AddEntry (lit "x") 10 "id-x" true, true);
      (AddEntry (lit "y") 20 "id-y" false, true);
      (TogglePinEntry "id-y", false) ]
    initialStore.

Definition entryX : ClipboardEntry :=
  {| id := "id-x"; text := lit "x"; timestamp := 10; pinned := false |}.

Definition entryY : ClipboardEntry :=
  {| id := "id-y"; text := lit "y"; timestamp := 20; pinned := true |}.

(** "b" added at time 20, then "c" at time 10: the clock ran backwards;
    the updater's return value is the state both times. *)
Definition backwardsClockRun : list (Op * bool) :=
  [ (AddEntry (lit "b") 20 "id-b" true, true);
    (AddEntry (lit "c") 10 "id-c" true, true) ].

Definition entryB20 : ClipboardEntry :=
  {| id := "id-b"; text := lit "b"; timestamp := 20; pinned := false |}.

Definition entryC10 : ClipboardEntry :=
  {| id := "id-c"; text := lit "c"; timestamp := 10; pinned := false |}.

(** A store whose storage cell holds a snapshot this hook did not write:
    the same text under two identifiers. *)
Definition foreignSnapshotStore : Store :=
  {| history := []; isLoading := true; error := None;
     localStorage :=
       Some (SnapshotJSON
               [ {| id := "1"; text := lit "t"; timestamp := 1; pinned := false |};
                 {| id := "2"; text := lit "t"; timestamp := 2; pinned := false |} ]);
     effects := [] |}.

(** ** The rest of the hook, and the components that call it

    [App.tsx] holds the hook's state next to its own (search term, the
    "Copied" banner) and talks to [navigator.clipboard];
    [ClipboardItemCard] renders one entry and calls back into the hook. *)

(** [showNotification(message, title)] with the title given. *)
Definition showNotificationTitled (message title : string) (s : Store)
  : Store :=
  emit (Notification title message) s.

Record Page : Type := mkPage {
  manager : Store;
  clipboardText : jsstring;
  searchTerm : jsstring;
  showCopiedNotification : bool;
  pendingHides : nat
}.

Definition withManager (m : Store) (p : Page) : Page :=
  {| manager := m; clipboardText := clipboardText p;
     searchTerm := searchTerm p;
     showCopiedNotification := showCopiedNotification p;
     pendingHides := pendingHides p |}.

Definition writeText (t : jsstring) (p : Page) : Page :=
  {| manager := manager p; clipboardText := t;
     searchTerm := searchTerm p;
     showCopiedNotification := showCopiedNotification p;
     pendingHides := pendingHides p |}.

Definition setSearchTerm (t : jsstring) (p : Page) : Page :=
  {| manager := manager p; clipboardText := clipboardText p;
     searchTerm := t;
     showCopiedNotification := showCopiedNotification p;
     pendingHides := pendingHides p |}.

Definition copyError : string :=
  "Could not copy to clipboard. Permission might be denied by the browser.".

(** [writeOk] is the outcome of [navigator.clipboard.writeText]: [false]
    when the promise rejects. *)
Definition copyToSystemClipboard (t : jsstring) (writeOk : bool) (p : Page)
  : Page :=
  if writeOk then writeText t p
  else
    withManager
      (showNotificationTitled "Error: Could not copy text." "Copy Failed"
         (setError (Some copyError)
            (emit (ConsoleError "Failed to copy to system clipboard:")
               (manager p))))
      p.

(** [!error] for [error : string | null]. *)
Definition noError (e : option string) : bool :=
  match e with
  | None => true
  | Some String.EmptyString => true
  | Some _ => false
  end.

(** [handleCopyToClipboard] tests the [error] it closed over, the one of
    the render that created the callback: the value before the copy.  The
    [setTimeout] it starts is counted in [pendingHides]. *)
Definition handleCopyToClipboard (t : jsstring) (writeOk : bool) (p : Page)
  : Page :=
  let error := error (manager p) in
  let p' := copyToSystemClipboard t writeOk p in
  if noError error then
    {| manager := manager p'; clipboardText := clipboardText p';
       searchTerm := searchTerm p';
       showCopiedNotification := true;
       pendingHides := S (pendingHides p') |}
  else p'.

(** The callback of that [setTimeout]. *)
Definition hideCopiedNotification (p : Page) : Page :=
  {| manager := manager p; clipboardText := clipboardText p;
     searchTerm := searchTerm p;
     showCopiedNotification := false;
     pendingHides := pred (pendingHides p) |}.

(** How [navigator.clipboard.readText] goes: no such API, a rejection
    named [NotAllowedError], any other rejection, or the text. *)
Inductive ClipboardAccess : Type :=
| ApiMissing
| NotAllowed
| OtherFailure
| Granted.

Definition permissionError : string :=
  "Clipboard permission denied by browser. Please grant permission or focus the page to read from clipboard automatically.".

Definition readError : string :=
  "Could not read clipboard automatically. You can still manage existing history.".

Definition apiError : string := "Clipboard API not available in this browser.".

Section Components.
Variable MAX_HISTORY_ITEMS : nat.

Definition readClipboardAndAdd (access : ClipboardAccess) (now : Z)
    (uuid : string) (saveOk returnedLast : bool) (p : Page) : Page :=
  match access with
  | ApiMissing => withManager (setError (Some apiError) (manager p)) p
  | Granted =>
      let clip := clipboardText p in
      if negb (isBlank clip) then
        let mostRecentNonPinned :=
          find (fun item => negb (pinned item)) (history (manager p)) in
        match mostRecentNonPinned with
        | Some item =>
            if negb (jsstring_eqb (text item) clip)
            then withManager
                   (addEntry MAX_HISTORY_ITEMS clip now uuid saveOk
                      returnedLast (manager p)) p
            else p
        | None =>
            withManager
              (addEntry MAX_HISTORY_ITEMS clip now uuid saveOk
                 returnedLast (manager p)) p
        end
      else p
  | NotAllowed =>
      withManager
        (setError (Some permissionError)
           (emit (ConsoleError "Failed to read clipboard on load:")
              (manager p))) p
  | OtherFailure =>
      withManager
        (setError (Some readError)
           (emit (ConsoleError "Failed to read clipboard on load:")
              (manager p))) p
  end.

(** The effect that runs when [isLoading] changes. *)
Definition clipboardEffect (access : ClipboardAccess) (now : Z)
    (uuid : string) (saveOk returnedLast : bool) (p : Page) : Page :=
  if negb (isLoading (manager p))
  then readClipboardAndAdd access now uuid saveOk returnedLast p
  else p.
End Components.

(** [confirmed] is the answer to [window.confirm]. *)
Definition handleClearAll (confirmed saveOk : bool) (p : Page) : Page :=
  if List.length
       (filter (fun item => negb (pinned item)) (history (manager p))) =? 0
  then p
  else if confirmed
       then withManager (clearHistory saveOk (manager p)) p
       else p.

(** [String.prototype.includes]: [sub] occurs in [s] as a run of code
    units. *)
Fixpoint startsWith (s sub : jsstring) : bool :=
  match sub, s with
  | [], _ => true
  | _ :: _, [] => false
  | c :: sub', d :: s' => (c =? d)%N && startsWith s' sub'
  end.

Fixpoint includes (s sub : jsstring) : bool :=
  startsWith s sub
  || match s with
     | [] => false
     | _ :: s' => includes s' sub
     end.

Section Search.
(** [String.prototype.toLowerCase], a built-in the embedding does not
    spell out. *)
Variable toLowerCase : jsstring -> jsstring.

Definition filteredHistory (p : Page) : list ClipboardEntry :=
  match searchTerm p with
  | [] => history (manager p)
  | _ =>
      filter
        (fun item =>
           includes (toLowerCase (text item)) (toLowerCase (searchTerm p)))
        (history (manager p))
  end.
End Search.

(** *** [ClipboardItemCard] *)

Definition displayText (item : ClipboardEntry) : jsstring :=
  if 150 <? List.length (text item)
  then slice (text item) 0 150 ++ lit "..."
  else text item.

(** The delete button is rendered for unpinned items only. *)
Definition deleteButtonShown (item : ClipboardEntry) : bool :=
  negb (pinned item).

(** [handleDelete], with [onDelete] bound to [deleteEntry] as [App] binds
    it. *)
Definition handleDelete (item : ClipboardEntry) (confirmed saveOk : bool)
    (s : Store) : Store :=
  if confirmed then deleteEntry (id item) saveOk s else s.

(** A click on the card's delete button, where there is one. *)
Definition deleteClick (item : ClipboardEntry) (confirmed saveOk : bool)
    (s : Store) : Store :=
  if deleteButtonShown item then handleDelete item confirmed saveOk s else s.

(** [crypto.randomUUID()] returned an identifier no entry carries. *)
Definition freshUuid (o : Op) (s : Store) : Prop :=
  match o with
  | AddEntry _ _ uuid _ => ~ In uuid (map id (history s))
  | _ => True
  end.

(** A page around [exampleStore]: the clipboard and the search box both
    hold "x". *)
Definition examplePage : Page :=
  {| manager := exampleStore; clipboardText := lit "x";
     searchTerm := lit "x"; showCopiedNotification := false;
     pendingHides := 0 |}.

(** A card text of 200 code units. *)
Definition longEntry : ClipboardEntry :=
  {| id := "id-long"; text := repeat 120%N 200; timestamp := 1;
     pinned := false |}.

(** * Properties *)

(** ** Facts about the JavaScript primitives *)

Section ArrayFacts.
Variable A : Type.

Lemma findIndex_Some (p : A -> bool) (l : list A) (i : nat) :
  findIndex p l = Some i ->
  exists l1 x l2,
    l = l1 ++ x :: l2 /\ List.length l1 = i /\ p x = true /\
    (forall y, In y l1 -> p y = false) /\
    nth_error l i = Some x /\
    slice l 0 i = l1 /\ sliceFrom l (i + 1) = l2.
Proof.
  revert i. induction l as [|a l IH]; intros i H; simpl in H.
  - discriminate.
  - destruct (p a) eqn:Ha.
    + injection H as <-. exists [], a, l. unfold slice, sliceFrom.
      simpl. repeat split; auto. intros y [].
    + destruct (findIndex p l) as [k|] eqn:Hk; [|discriminate].
      injection H as <-.
      destruct (IH k eq_refl) as (l1 & x & l2 & -> & Hlen & Hx & Hl1 & Hn & Hs & Hf).
      exists (a :: l1), x, l2. unfold slice, sliceFrom in *. simpl in *.
      rewrite Nat.sub_0_r in Hs.
      repeat split; auto.
      * intros y [<-|Hy]; auto.
      * now rewrite Hs.
Qed.

Lemma findIndex_None (p : A -> bool) (l : list A) :
  findIndex p l = None -> forall x, In x l -> p x = false.
Proof.
  induction l as [|a l IH]; simpl; intros H x Hx.
  - destruct Hx.
  - destruct (p a) eqn:Ha; [discriminate|].
    destruct (findIndex p l); [discriminate|].
    destruct Hx as [<-|Hx]; auto.
Qed.

Lemma findIndex_found (p : A -> bool) (l : list A) (x : A) :
  In x l -> p x = true -> exists i, findIndex p l = Some i.
Proof.
  intros Hin Hp. destruct (findIndex p l) as [i|] eqn:H; eauto.
  rewrite (findIndex_None _ _ H _ Hin) in Hp. discriminate.
Qed.

Lemma firstn_In (n : nat) (l : list A) (x : A) :
  In x (firstn n l) -> In x l.
Proof.
  intros H. rewrite <- (firstn_skipn n l). apply in_or_app. now left.
Qed.

Variable cmp : A -> A -> Z.

Lemma insertSorted_perm (x : A) (l : list A) :
  Permutation (insertSorted cmp x l) (x :: l).
Proof.
  induction l as [|y l IH]; simpl.
  - reflexivity.
  - destruct (cmp x y <=? 0)%Z.
    + reflexivity.
    + rewrite IH. apply perm_swap.
Qed.

Lemma sort_perm (l : list A) : Permutation (sort cmp l) l.
Proof.
  induction l as [|x l IH]; simpl.
  - reflexivity.
  - rewrite insertSorted_perm. now constructor.
Qed.

Lemma sort_In (l : list A) (x : A) : In x (sort cmp l) <-> In x l.
Proof.
  split; apply Permutation_in; [|symmetry]; apply sort_perm.
Qed.

Lemma sort_length (l : list A) : List.length (sort cmp l) = List.length l.
Proof. apply Permutation_length, sort_perm. Qed.

(** Stability: elements that compare equal among themselves keep the
    order they had before the sort. *)
Lemma insertSorted_filter (q : A -> bool) (x : A) (l : list A) :
  (forall y, q x = true -> q y = true -> (cmp x y <= 0)%Z) ->
  filter q (insertSorted cmp x l) = filter q (x :: l).
Proof.
  intros Hq. induction l as [|y l IH]; simpl.
  - reflexivity.
  - destruct (cmp x y <=? 0)%Z eqn:Hc.
    + reflexivity.
    + simpl. simpl in IH. rewrite IH.
      destruct (q x) eqn:Hx, (q y) eqn:Hy; auto.
      apply Z.leb_gt in Hc. specialize (Hq y eq_refl Hy). lia.
Qed.

Lemma sort_filter (q : A -> bool) (l : list A) :
  (forall x y, q x = true -> q y = true -> (cmp x y <= 0)%Z) ->
  filter q (sort cmp l) = filter q l.
Proof.
  intros Hq. induction l as [|x l IH]; simpl.
  - reflexivity.
  - rewrite insertSorted_filter by auto. simpl. now rewrite IH.
Qed.

Hypothesis cmp_total : forall a b, (0 < cmp a b)%Z -> (cmp b a <= 0)%Z.
Hypothesis cmp_trans :
  forall a b c, (cmp a b <= 0)%Z -> (cmp b c <= 0)%Z -> (cmp a c <= 0)%Z.

Lemma insertSorted_sorted (x : A) (l : list A) :
  StronglySorted (cmp_le cmp) l -> StronglySorted (cmp_le cmp) (insertSorted cmp x l).
Proof.
  induction 1 as [|y l Hs IH Hy]; simpl.
  - constructor; constructor.
  - destruct (cmp x y <=? 0)%Z eqn:Hc.
    + apply Z.leb_le in Hc. constructor.
      * now constructor.
      * constructor; auto.
        rewrite Forall_forall in *. intros z Hz.
        eapply cmp_trans; eauto. now apply Hy.
    + apply Z.leb_gt in Hc. constructor; auto.
      rewrite Forall_forall in *. intros z Hz.
      apply (Permutation_in _ (insertSorted_perm x l)) in Hz.
      destruct Hz as [<-|Hz]; [now apply cmp_total | now apply Hy].
Qed.

Lemma sort_sorted (l : list A) : StronglySorted (cmp_le cmp) (sort cmp l).
Proof.
  induction l as [|x l IH]; simpl.
  - constructor.
  - now apply insertSorted_sorted.
Qed.

Lemma sort_of_sorted (l : list A) : StronglySorted (cmp_le cmp) l -> sort cmp l = l.
Proof.
  induction 1 as [|y l Hs IH Hy]; simpl.
  - reflexivity.
  - rewrite IH. destruct l as [|z l]; simpl; auto.
    apply Forall_inv in Hy. unfold cmp_le in Hy.
    apply Z.leb_le in Hy. now rewrite Hy.
Qed.

Lemma sort_idempotent (l : list A) : sort cmp (sort cmp l) = sort cmp l.
Proof. apply sort_of_sorted, sort_sorted. Qed.

(** Positions in a sorted list. *)
Lemma sorted_nth_le (l : list A) (i j : nat) (a b : A) :
  StronglySorted (cmp_le cmp) l ->
  nth_error l i = Some a -> nth_error l j = Some b ->
  i < j -> (cmp a b <= 0)%Z.
Proof.
  intros Hs. revert i j. induction Hs as [|y l Hs IH Hy]; intros i j Hi Hj Hlt.
  - destruct i; discriminate.
  - destruct j as [|j]; [lia|]. simpl in Hj.
    destruct i as [|i]; simpl in Hi.
    + injection Hi as <-. rewrite Forall_forall in Hy.
      apply Hy. eapply nth_error_In; eauto.
    + apply (IH i j); auto. lia.
Qed.
End ArrayFacts.

(** ** The comparator and the canonical order *)

Lemma compareEntries_le (a b : ClipboardEntry) :
  (compareEntries a b <= 0)%Z <->
  (pinned a = true /\ pinned b = false) \/
  (pinned a = pinned b /\ (timestamp b <= timestamp a)%Z).
Proof.
  unfold compareEntries, b2z.
  destruct (pinned a), (pinned b); simpl; split; intros H;
    try (right; split; [reflexivity | lia]);
    try (left; split; reflexivity);
    try lia;
    destruct H as [[H1 H2]|[H1 H2]]; try discriminate; lia.
Qed.

Lemma compareEntries_total (a b : ClipboardEntry) :
  (0 < compareEntries a b)%Z -> (compareEntries b a <= 0)%Z.
Proof.
  unfold compareEntries, b2z. destruct (pinned a), (pinned b); simpl; lia.
Qed.

Lemma compareEntries_trans (a b c : ClipboardEntry) :
  (compareEntries a b <= 0)%Z -> (compareEntries b c <= 0)%Z ->
  (compareEntries a c <= 0)%Z.
Proof.
  unfold compareEntries, b2z.
  destruct (pinned a), (pinned b), (pinned c); simpl; lia.
Qed.

Lemma sortHistory_ordered (l : list ClipboardEntry) : ordered (sortHistory l).
Proof.
  apply sort_sorted; [apply compareEntries_total | apply compareEntries_trans].
Qed.

Lemma sortHistory_of_ordered (l : list ClipboardEntry) :
  ordered l -> sortHistory l = l.
Proof. apply sort_of_sorted. Qed.

Lemma sortHistory_perm (l : list ClipboardEntry) :
  Permutation (sortHistory l) l.
Proof. apply sort_perm. Qed.

Lemma sortHistory_In (l : list ClipboardEntry) (e : ClipboardEntry) :
  In e (sortHistory l) <-> In e l.
Proof. apply sort_In. Qed.

Lemma sortHistory_stable (p : bool) (t : Z) (l : list ClipboardEntry) :
  filter (sameKey p t) (sortHistory l) = filter (sameKey p t) l.
Proof.
  apply sort_filter. intros x y Hx Hy. unfold sameKey in *.
  apply andb_prop in Hx as [Hx1 Hx2]. apply andb_prop in Hy as [Hy1 Hy2].
  apply eqb_prop in Hx1, Hy1. apply Z.eqb_eq in Hx2, Hy2.
  apply compareEntries_le. right. split; [congruence | lia].
Qed.

(** ** Blank texts *)

Lemma trimStart_nil (t : jsstring) :
  trimStart t = [] <-> forallb isWhiteSpace t = true.
Proof.
  induction t as [|c t IH]; simpl.
  - tauto.
  - destruct (isWhiteSpace c); simpl; [exact IH|].
    split; discriminate.
Qed.

Lemma trimStart_head (t : jsstring) (c : N) (u : jsstring) :
  trimStart t = c :: u -> isWhiteSpace c = false.
Proof.
  induction t as [|d t IH]; simpl; [discriminate|].
  destruct (isWhiteSpace d) eqn:Hd; auto.
  intros [= <- <-]. exact Hd.
Qed.

(** [addEntry]'s guard holds exactly for the texts made of white space
    only (the empty text among them). *)
Lemma isBlank_whitespace (t : jsstring) :
  isBlank t = true <-> forallb isWhiteSpace t = true.
Proof.
  assert (Hnil : forall u : jsstring, rev u = [] -> u = []).
  { intros u Hu. rewrite <- (rev_involutive u), Hu. reflexivity. }
  unfold isBlank. destruct t as [|c t]; [simpl; tauto|].
  remember (c :: t) as w eqn:Hw. clear Hw.
  unfold trim, trimEnd.
  destruct (rev (trimStart (rev (trimStart w)))) as [|d u] eqn:H.
  - split; [intros _|reflexivity].
    apply Hnil in H. apply trimStart_nil in H.
    rewrite forallb_forall in H.
    destruct (trimStart w) as [|e v] eqn:Hv.
    + now apply trimStart_nil.
    + apply trimStart_head in Hv as He.
      rewrite (H e) in He; [discriminate|].
      apply in_rev. rewrite rev_involutive. now left.
  - split; [discriminate|]. intros Hall.
    apply trimStart_nil in Hall. rewrite Hall in H. discriminate.
Qed.

(** ** What [saveHistory] leaves behind *)

Lemma saveHistory_history l ok s :
  history (saveHistory l ok s) = sortHistory l.
Proof. reflexivity. Qed.

Lemma saveHistory_localStorage l ok s :
  localStorage (saveHistory l ok s) =
  if ok then Some (SnapshotJSON (sortHistory l)) else localStorage s.
Proof. destruct ok; reflexivity. Qed.

Lemma saveHistory_error l ok s :
  error (saveHistory l ok s) = if ok then error s else Some saveError.
Proof. destruct ok; reflexivity. Qed.

Lemma saveHistory_isLoading l ok s :
  isLoading (saveHistory l ok s) = isLoading s.
Proof. destruct ok; reflexivity. Qed.

Lemma saveHistory_effects l ok s :
  effects (saveHistory l ok s) =
  effects s ++ SetItem (sortHistory l) ok
    :: (if ok then []
        else [ConsoleError "Error saving history to localStorage:"]).
Proof. destruct ok; simpl; rewrite <- ?app_assoc; reflexivity. Qed.

Lemma notifications_app l1 l2 :
  notifications (l1 ++ l2) = notifications l1 ++ notifications l2.
Proof.
  induction l1 as [|[]]; simpl; auto. now rewrite IHl1.
Qed.

Lemma saveHistory_notifications l ok s :
  notifications (effects (saveHistory l ok s)) = notifications (effects s).
Proof.
  rewrite saveHistory_effects, notifications_app.
  destruct ok; simpl; now rewrite app_nil_r.
Qed.


(** ** List facts the operations rely on *)

Lemma filter_ordered (q : ClipboardEntry -> bool) (l : list ClipboardEntry) :
  ordered l -> ordered (filter q l).
Proof.
  unfold ordered. induction 1 as [|x l Hs IH Hx]; simpl.
  - constructor.
  - destruct (q x); auto. constructor; auto.
    rewrite Forall_forall in *. intros y Hy.
    apply filter_In in Hy as [Hy _]. now apply Hx.
Qed.

Lemma filter_all (q : ClipboardEntry -> bool) (l : list ClipboardEntry) :
  (forall e, In e l -> q e = true) -> filter q l = l.
Proof.
  induction l as [|x l IH]; simpl; intros H.
  - reflexivity.
  - rewrite (H x) by now left. rewrite IH; auto.
Qed.

Lemma NoDup_map_eq (B : Type) (f : ClipboardEntry -> B)
    (l : list ClipboardEntry) (x y : ClipboardEntry) :
  NoDup (map f l) -> In x l -> In y l -> f x = f y -> x = y.
Proof.
  induction l as [|a l IH]; simpl; intros Hnd Hx Hy Hf.
  - destruct Hx.
  - inversion Hnd as [|? ? Hna Hnd']; subst.
    destruct Hx as [<-|Hx], Hy as [<-|Hy]; auto.
    + exfalso. apply Hna. rewrite Hf. now apply in_map.
    + exfalso. apply Hna. rewrite <- Hf. now apply in_map.
Qed.

Lemma showNotification_saveHistory_effects m l ok s :
  effects (showNotification m (saveHistory l ok s))
  = effects s ++ SetItem (sortHistory l) ok
      :: ((if ok then []
           else [ConsoleError "Error saving history to localStorage:"])
            ++ [Notification "Clipboard Pro" m]).
Proof.
  unfold showNotification, emit. cbn [effects].
  rewrite saveHistory_effects, <- app_assoc. reflexivity.
Qed.

Lemma showNotification_notifications m s :
  notifications (effects (showNotification m s))
  = notifications (effects s) ++ [m].
Proof.
  unfold showNotification, emit. cbn [effects].
  now rewrite notifications_app.
Qed.

Lemma jsstring_eqb_eq (a b : jsstring) : jsstring_eqb a b = true <-> a = b.
Proof.
  unfold jsstring_eqb. destruct (list_eq_dec N.eq_dec a b); split; auto.
  discriminate.
Qed.

Lemma partition_perm (q : ClipboardEntry -> bool) (l : list ClipboardEntry) :
  Permutation (filter q l ++ filter (fun x => negb (q x)) l) l.
Proof.
  induction l as [|x l IH]; simpl.
  - reflexivity.
  - destruct (q x); simpl.
    + now constructor.
    + rewrite <- Permutation_middle. now constructor.
Qed.

Lemma capUnpinned_incl (cap : nat) (l : list ClipboardEntry) (x : ClipboardEntry) :
  In x (capUnpinned cap l) -> In x l.
Proof.
  unfold capUnpinned. intros H. apply in_app_or in H as [H|H].
  - now apply filter_In in H.
  - apply firstn_In in H. now apply filter_In in H.
Qed.

Lemma capUnpinned_pinned (cap : nat) (l : list ClipboardEntry) (x : ClipboardEntry) :
  In x l -> pinned x = true -> In x (capUnpinned cap l).
Proof.
  intros H Hp. unfold capUnpinned. apply in_or_app. left.
  apply filter_In. now split.
Qed.

Lemma filter_none (q : ClipboardEntry -> bool) (l : list ClipboardEntry) :
  (forall e, In e l -> q e = false) -> filter q l = [].
Proof.
  induction l as [|x l IH]; simpl; intros H.
  - reflexivity.
  - rewrite (H x) by now left. apply IH. auto.
Qed.

Lemma unpinnedCount_capUnpinned (cap : nat) (l : list ClipboardEntry) :
  unpinnedCount (capUnpinned cap l) = Nat.min cap (unpinnedCount l).
Proof.
  unfold unpinnedCount, capUnpinned. rewrite filter_app.
  rewrite (@filter_none _ (filter _ l)).
  - simpl. rewrite filter_all.
    + apply length_firstn.
    + intros e He. apply firstn_In in He. now apply filter_In in He.
  - intros e He. apply filter_In in He as [_ He]. now rewrite He.
Qed.

Lemma capUnpinned_length (cap : nat) (l : list ClipboardEntry) :
  List.length (capUnpinned cap l) <= List.length l.
Proof.
  rewrite <- (Permutation_length (partition_perm (fun x => pinned x) l)).
  unfold capUnpinned. rewrite !length_app, length_firstn. lia.
Qed.

(** The capped list is the partitioned list without a tail. *)
Lemma capUnpinned_prefix (cap : nat) (l : list ClipboardEntry) :
  exists dropped,
    Permutation (capUnpinned cap l ++ dropped) l.
Proof.
  exists (skipn cap (filter (fun item => negb (pinned item)) l)).
  unfold capUnpinned. rewrite <- app_assoc, firstn_skipn.
  apply partition_perm.
Qed.

Lemma capUnpinned_NoDup_text (cap : nat) (l : list ClipboardEntry) :
  NoDup (map text l) -> NoDup (map text (capUnpinned cap l)).
Proof.
  intros H. destruct (capUnpinned_prefix cap l) as [d Hd].
  apply (Permutation_map text) in Hd. symmetry in Hd.
  apply (Permutation_NoDup Hd) in H. rewrite map_app in H.
  now apply NoDup_app_remove_r in H.
Qed.

Lemma capUnpinned_head (cap : nat) (x : ClipboardEntry) (l : list ClipboardEntry) :
  pinned x = true \/ 1 <= cap -> In x (capUnpinned cap (x :: l)).
Proof.
  intros H. destruct (pinned x) eqn:Hp.
  - apply capUnpinned_pinned; [now left | assumption].
  - destruct H as [H|H]; [discriminate|].
    unfold capUnpinned. apply in_or_app. right. simpl. rewrite Hp. simpl.
    destruct cap; [lia|]. now left.
Qed.

(** ** The operations, one by one *)

Section ManagerFacts.
Variable MAX_HISTORY_ITEMS : nat.

(** C5: a text that is empty or made of white space only is rejected:
    [addEntry] returns the store it was given, so the history, the error
    value, the storage cell and the list of issued effects (no [SetItem])
    are all unchanged. *)
Theorem addEntry_blank_rejected :
  forall (t : jsstring) (now : Z) (uuid : string)
         (saveOk returnedLast : bool) (s : Store),
    t = [] \/ (forall c, In c t -> isWhiteSpace c = true) ->
    addEntry MAX_HISTORY_ITEMS t now uuid saveOk returnedLast s = s.
Proof.
  intros t now uuid ok rl s H. unfold addEntry.
  replace (isBlank t) with true; [reflexivity|].
  symmetry. apply isBlank_whitespace.
  destruct H as [->|H]; [reflexivity|].
  now apply forallb_forall.
Qed.

(** C7: [clearHistory] keeps exactly the pinned entries, each as it was
    (and in the order they had, when the history was in canonical order),
    and hands [clearedMessage] to [showNotification] if and only if the
    history held an unpinned entry. *)
Theorem clearHistory_keeps_pinned :
  forall (saveOk : bool) (s : Store),
    Permutation (history (clearHistory saveOk s))
      (filter (fun item => pinned item) (history s)) /\
    (forall e, In e (history (clearHistory saveOk s)) <->
               In e (history s) /\ pinned e = true) /\
    (ordered (history s) ->
     history (clearHistory saveOk s)
     = filter (fun item => pinned item) (history s)) /\
    (((exists e, In e (history s) /\ pinned e = false) /\
      notifications (effects (clearHistory saveOk s))
      = notifications (effects s) ++ [clearedMessage])
     \/
     ((forall e, In e (history s) -> pinned e = true) /\
      notifications (effects (clearHistory saveOk s))
      = notifications (effects s))).
Proof.
  intros ok s.
  assert (Hh : history (clearHistory ok s)
               = sortHistory (filter (fun item => pinned item) (history s))).
  { unfold clearHistory. destruct (existsb _ _); reflexivity. }
  rewrite Hh. repeat split.
  - apply sortHistory_perm.
  - apply (proj1 (sortHistory_In _ _)) in H. now apply filter_In in H.
  - apply (proj1 (sortHistory_In _ _)) in H. now apply filter_In in H.
  - intros [H1 H2]. apply sortHistory_In, filter_In. now split.
  - intros Ho. now apply sortHistory_of_ordered, filter_ordered.
  - unfold clearHistory.
    destruct (existsb (fun item => negb (pinned item)) (history s)) eqn:Hex.
    + left. split.
      * apply existsb_exists in Hex as (e & He & Hp). exists e. split; auto.
        now destruct (pinned e).
      * now rewrite showNotification_notifications, saveHistory_notifications.
    + right. split.
      * intros e He. destruct (pinned e) eqn:Hp; auto.
        assert (Hc : existsb (fun item => negb (pinned item)) (history s) = true).
        { apply existsb_exists. exists e. split; auto. now rewrite Hp. }
        congruence.
      * apply saveHistory_notifications.
Qed.

(** C10: [deleteEntry] with an identifier no entry carries removes nothing
    (the history is the old one put through the canonical sort, hence the
    old one itself when that was in canonical order), and still attempts the
    [setItem] with that list and still notifies [removedMessage], exactly as
    for a removal. *)
Theorem deleteEntry_absent_id :
  forall (i : string) (saveOk : bool) (s : Store),
    (forall e, In e (history s) -> id e <> i) ->
    history (deleteEntry i saveOk s) = sortHistory (history s) /\
    Permutation (history (deleteEntry i saveOk s)) (history s) /\
    (ordered (history s) -> history (deleteEntry i saveOk s) = history s) /\
    effects (deleteEntry i saveOk s)
    = effects s ++ SetItem (sortHistory (history s)) saveOk
        :: ((if saveOk then []
             else [ConsoleError "Error saving history to localStorage:"])
              ++ [Notification "Clipboard Pro" removedMessage]) /\
    localStorage (deleteEntry i saveOk s)
    = (if saveOk then Some (SnapshotJSON (sortHistory (history s)))
       else localStorage s).
Proof.
  intros i ok s Habs. unfold deleteEntry.
  rewrite showNotification_saveHistory_effects.
  assert (Hf : filter (fun entry => negb (String.eqb (id entry) i)) (history s)
               = history s).
  { apply filter_all. intros e He. apply negb_true_iff, String.eqb_neq.
    now apply Habs. }
  rewrite Hf. cbn [history showNotification emit].
  rewrite saveHistory_history. repeat split.
  - apply sortHistory_perm.
  - apply sortHistory_of_ordered.
  - cbn [localStorage]. apply saveHistory_localStorage.
Qed.

(** *** [togglePinEntry] *)

Lemma togglePinEntry_found (i : string) (ok : bool) (s : Store)
    (e : ClipboardEntry) :
  NoDup (map id (history s)) -> In e (history s) -> id e = i ->
  exists l1 l2,
    history s = l1 ++ e :: l2 /\
    togglePinEntry i ok s
    = showNotification
        (if negb (pinned e) then "Item pinned." else "Item unpinned.")
        (saveHistory (l1 ++ withPinned e (negb (pinned e)) :: l2) ok s).
Proof.
  intros Hnd Hin Hid.
  destruct (findIndex_found (fun entry => String.eqb (id entry) i)
              (history s) e Hin) as [k Hk].
  { now apply String.eqb_eq. }
  destruct (findIndex_Some _ _ Hk)
    as (l1 & x & l2 & Hsplit & _ & Hx & _ & Hnth & Hs1 & Hs2).
  apply String.eqb_eq in Hx.
  assert (x = e) as ->.
  { apply (NoDup_map_eq id (history s)); auto; [|congruence].
    rewrite Hsplit. apply in_elt. }
  exists l1, l2. split; auto.
  unfold togglePinEntry. rewrite Hk, Hnth, Hs1, Hs2. reflexivity.
Qed.

Lemma togglePinEntry_entry (i : string) (ok : bool) (s : Store)
    (e : ClipboardEntry) :
  NoDup (map id (history s)) -> In e (history s) -> id e = i ->
  In (withPinned e (negb (pinned e))) (history (togglePinEntry i ok s)) /\
  (forall x, In x (history (togglePinEntry i ok s)) -> id x = i ->
             x = withPinned e (negb (pinned e))) /\
  (forall x, id x <> i ->
             (In x (history (togglePinEntry i ok s)) <-> In x (history s))) /\
  List.length (history (togglePinEntry i ok s)) = List.length (history s) /\
  NoDup (map id (history (togglePinEntry i ok s))).
Proof.
  intros Hnd Hin Hid.
  destruct (@togglePinEntry_found i ok s e Hnd Hin Hid) as (l1 & l2 & Hsplit & ->).
  cbn [history showNotification emit]. rewrite saveHistory_history.
  set (e' := withPinned e (negb (pinned e))).
  assert (Hnd' : NoDup (history s)) by (eapply NoDup_map_inv; eauto).
  rewrite Hsplit in Hnd'. apply NoDup_remove_2 in Hnd'.
  repeat split.
  - apply sortHistory_In, in_elt.
  - intros x Hx Hxi. apply (proj1 (sortHistory_In _ _)) in Hx.
    apply in_app_or in Hx as [Hx|[Hx|Hx]]; auto.
    + exfalso. apply Hnd'. apply in_or_app. left.
      replace e with x; auto.
      apply (NoDup_map_eq id (history s)); auto; [|congruence].
      rewrite Hsplit. apply in_or_app. now left.
    + exfalso. apply Hnd'. apply in_or_app. right.
      replace e with x; auto.
      apply (NoDup_map_eq id (history s)); auto; [|congruence].
      rewrite Hsplit. apply in_or_app. right. now right.
  - intros Hx. apply (proj1 (sortHistory_In _ _)) in Hx. rewrite Hsplit.
    apply in_app_or in Hx as [Hx|[Hx|Hx]]; apply in_or_app; auto.
    + subst x. exfalso. apply H. exact Hid.
    + right. now right.
  - intros Hx. apply sortHistory_In. rewrite Hsplit in Hx.
    apply in_app_or in Hx as [Hx|[Hx|Hx]]; apply in_or_app; auto.
    + subst x. exfalso. apply H. exact Hid.
    + right. now right.
  - unfold sortHistory. rewrite sort_length, Hsplit, !length_app. reflexivity.
  - apply (Permutation_NoDup (l := map id (history s))); auto.
    rewrite Hsplit. symmetry.
    etransitivity; [apply Permutation_map, sortHistory_perm|].
    rewrite !map_app. reflexivity.
Qed.

Lemma withPinned_involutive (e : ClipboardEntry) :
  withPinned (withPinned e (negb (pinned e)))
    (negb (pinned (withPinned e (negb (pinned e))))) = e.
Proof. destruct e as [a b c []]; reflexivity. Qed.

(** C8: in a history whose identifiers are distinct, [togglePinEntry i]
    replaces the entry carrying [i] by the same entry with [pinned] negated
    (identifier, text and timestamp as they were) and leaves every other
    entry alone; a second call brings the original entry back, timestamp
    included; with no entry carrying [i] the store is returned as it is. *)
Theorem togglePinEntry_flips_pinned :
  forall (i : string) (ok1 ok2 : bool) (s : Store),
    (forall e,
        NoDup (map id (history s)) -> In e (history s) -> id e = i ->
        (exists e',
            In e' (history (togglePinEntry i ok1 s)) /\
            id e' = id e /\ text e' = text e /\
            timestamp e' = timestamp e /\ pinned e' = negb (pinned e) /\
            (forall x, In x (history (togglePinEntry i ok1 s)) ->
                       id x = i -> x = e')) /\
        (forall x, id x <> i ->
                   (In x (history (togglePinEntry i ok1 s)) <->
                    In x (history s))) /\
        List.length (history (togglePinEntry i ok1 s))
        = List.length (history s) /\
        In e (history (togglePinEntry i ok2 (togglePinEntry i ok1 s))) /\
        (forall x,
            In x (history (togglePinEntry i ok2 (togglePinEntry i ok1 s))) ->
            id x = i -> x = e) /\
        (forall x, id x <> i ->
                   (In x (history (togglePinEntry i ok2 (togglePinEntry i ok1 s)))
                    <-> In x (history s)))) /\
    ((forall e, In e (history s) -> id e <> i) -> togglePinEntry i ok1 s = s).
Proof.
  intros i ok1 ok2 s. split.
  - intros e Hnd Hin Hid.
    destruct (@togglePinEntry_entry i ok1 s e Hnd Hin Hid)
      as (H1 & H2 & H3 & H4 & H5).
    assert (Hid' : id (withPinned e (negb (pinned e))) = i) by exact Hid.
    destruct (@togglePinEntry_entry i ok2 _ _ H5 H1 Hid')
      as (K1 & K2 & K3 & _ & _).
    rewrite withPinned_involutive in K1, K2.
    repeat split; auto.
    + exists (withPinned e (negb (pinned e))). repeat split; auto.
    + now apply H3.
    + now apply H3.
    + intros Hx. apply H3; auto. now apply K3.
    + intros Hx. apply K3; auto. now apply H3.
  - intros Habs. unfold togglePinEntry.
    destruct (findIndex _ (history s)) as [k|] eqn:Hk; auto.
    destruct (findIndex_Some _ _ Hk)
      as (l1 & x & l2 & Hsplit & _ & Hx & _).
    apply String.eqb_eq in Hx. exfalso. apply (Habs x); auto.
    rewrite Hsplit. apply in_elt.
Qed.

(** *** [addEntry] *)

Lemma addEntryFinal_capUnpinned (t : jsstring) (now : Z) (uuid : string)
    (prevHistory : list ClipboardEntry) :
  (exists l1 e l2,
      prevHistory = l1 ++ e :: l2 /\ text e = t /\
      (forall y, In y l1 -> text y <> t) /\
      addEntryFinal MAX_HISTORY_ITEMS t now uuid prevHistory
      = capUnpinned MAX_HISTORY_ITEMS (withTimestamp e now :: l1 ++ l2))
  \/
  ((forall y, In y prevHistory -> text y <> t) /\
   addEntryFinal MAX_HISTORY_ITEMS t now uuid prevHistory
   = capUnpinned MAX_HISTORY_ITEMS
       ({| id := uuid; text := t; timestamp := now; pinned := false |}
          :: prevHistory)).
Proof.
  assert (Hcap : forall l,
             filter (fun item => pinned item) l
               ++ (if MAX_HISTORY_ITEMS
                        <? List.length (filter (fun item => negb (pinned item)) l)
                   then slice (filter (fun item => negb (pinned item)) l)
                          0 MAX_HISTORY_ITEMS
                   else filter (fun item => negb (pinned item)) l)
             = capUnpinned MAX_HISTORY_ITEMS l).
  { intros l. unfold capUnpinned, slice. f_equal.
    destruct (Nat.ltb_spec MAX_HISTORY_ITEMS
                (List.length (filter (fun item => negb (pinned item)) l))).
    - now rewrite Nat.sub_0_r.
    - symmetry. now apply firstn_all2. }
  unfold addEntryFinal.
  destruct (findIndex _ prevHistory) as [k|] eqn:Hk.
  - left. destruct (findIndex_Some _ _ Hk)
      as (l1 & x & l2 & Hsplit & _ & Hx & Hl1 & Hnth & Hs1 & Hs2).
    exists l1, x, l2. rewrite Hnth, Hs1, Hs2, Hcap.
    repeat split; auto.
    + now apply jsstring_eqb_eq.
    + intros y Hy Heq. apply jsstring_eqb_eq in Heq.
      rewrite (Hl1 y Hy) in Heq. discriminate.
  - right. rewrite Hcap. split; auto.
    intros y Hy Heq. apply jsstring_eqb_eq in Heq.
    rewrite (findIndex_None _ _ Hk y Hy) in Heq. discriminate.
Qed.

Lemma addEntry_history (t : jsstring) (now : Z) (uuid : string)
    (ok rl : bool) (s : Store) :
  history (addEntry MAX_HISTORY_ITEMS t now uuid ok rl s)
  = if isBlank t then history s
    else if rl
         then addEntryFinal MAX_HISTORY_ITEMS t now uuid (history s)
         else sortHistory
                (addEntryFinal MAX_HISTORY_ITEMS t now uuid (history s)).
Proof. unfold addEntry. destruct (isBlank t), rl; reflexivity. Qed.

(** ** Invariants of runs *)

Lemma reachable_run (ops : list (Op * bool)) (s : Store) :
  reachable MAX_HISTORY_ITEMS s ->
  reachable MAX_HISTORY_ITEMS (run MAX_HISTORY_ITEMS ops s).
Proof.
  revert s. induction ops as [|[o ok] ops IH]; simpl; intros s H.
  - exact H.
  - apply IH. now apply reachable_step.
Qed.

Lemma togglePinEntry_cases (i : string) (ok : bool) (s : Store) :
  togglePinEntry i ok s = s \/
  exists l1 e l2,
    history s = l1 ++ e :: l2 /\
    unpins (TogglePinEntry i) s = pinned e /\
    togglePinEntry i ok s
    = showNotification
        (if negb (pinned e) then "Item pinned." else "Item unpinned.")
        (saveHistory (l1 ++ withPinned e (negb (pinned e)) :: l2) ok s).
Proof.
  unfold togglePinEntry, unpins.
  destruct (findIndex _ (history s)) as [k|] eqn:Hk; [|now left].
  destruct (findIndex_Some _ _ Hk)
    as (l1 & x & l2 & Hsplit & _ & _ & _ & Hnth & Hs1 & Hs2).
  rewrite Hnth, Hs1, Hs2. right. exists l1, x, l2. auto.
Qed.

Section Invariants.
Variable P : list ClipboardEntry -> Prop.
Variable allowUnpin : bool.
Hypothesis P_nil : P [].
Hypothesis P_sort : forall l, P l -> P (sortHistory l).
Hypothesis P_filter : forall q l, P l -> P (filter q l).
Hypothesis P_add :
  forall t now uuid l,
    isBlank t = false -> P l ->
    P (addEntryFinal MAX_HISTORY_ITEMS t now uuid l).
Hypothesis P_toggle :
  forall l1 e l2,
    (allowUnpin = false -> pinned e = false) ->
    P (l1 ++ e :: l2) -> P (l1 ++ withPinned e (negb (pinned e)) :: l2).

Lemma saveHistory_holdsOf (l : list ClipboardEntry) (ok : bool) (s : Store) :
  P l -> holdsOf P s -> holdsOf P (saveHistory l ok s).
Proof.
  intros Hl [Hh Hs]. split.
  - rewrite saveHistory_history. auto.
  - intros l'. rewrite saveHistory_localStorage. destruct ok; auto.
    intros [= <-]. auto.
Qed.

Lemma showNotification_holdsOf (m : string) (s : Store) :
  holdsOf P s -> holdsOf P (showNotification m s).
Proof. intros H. exact H. Qed.

Lemma loadHistory_holdsOf (s : Store) : holdsOf P s -> holdsOf P (loadHistory s).
Proof.
  intros [Hh Hs]. unfold loadHistory, holdsOf.
  cbn [localStorage setError setIsLoading].
  destruct (localStorage s) as [[l| |]|] eqn:Hl; cbn;
    (split; [auto | rewrite Hl; exact Hs]).
Qed.

Lemma step_holdsOf (o : Op) (ok : bool) (s : Store) :
  (allowUnpin = false -> unpins o s = false) ->
  holdsOf P s -> holdsOf P (step MAX_HISTORY_ITEMS o ok s).
Proof.
  intros Hun H. destruct o as [t now uuid rl|i| |i|]; simpl step.
  - unfold addEntry. destruct (isBlank t) eqn:Hb; auto.
    assert (Hf : P (addEntryFinal MAX_HISTORY_ITEMS t now uuid (history s))).
    { apply P_add; auto. apply (proj1 H). }
    pose proof (saveHistory_holdsOf ok Hf H) as [_ Hs].
    destruct rl.
    + split; [exact Hf | exact Hs].
    + apply saveHistory_holdsOf; auto.
  - unfold deleteEntry. apply showNotification_holdsOf, saveHistory_holdsOf; auto.
    apply P_filter, (proj1 H).
  - unfold clearHistory.
    destruct (existsb _ _);
      [apply showNotification_holdsOf|]; apply saveHistory_holdsOf; auto;
      apply P_filter, (proj1 H).
  - destruct (togglePinEntry_cases i ok s)
      as [->|(l1 & e & l2 & Hsplit & Hu & ->)]; auto.
    apply showNotification_holdsOf, saveHistory_holdsOf; auto.
    apply P_toggle.
    + intros Ha. rewrite <- Hu. auto.
    + rewrite <- Hsplit. apply (proj1 H).
  - now apply loadHistory_holdsOf.
Qed.

Lemma initialStore_holdsOf : holdsOf P initialStore.
Proof. split; [exact P_nil | discriminate]. Qed.

Lemma reachableVia_holdsOf (guard : Op -> Store -> Prop) (s : Store) :
  (forall o s', guard o s' -> allowUnpin = false -> unpins o s' = false) ->
  reachableVia MAX_HISTORY_ITEMS guard s -> holdsOf P s.
Proof.
  intros Hg. induction 1 as [|o ok s Hr IH Hu].
  - apply initialStore_holdsOf.
  - apply step_holdsOf; eauto.
Qed.

Lemma reachableWithoutUnpin_holdsOf (s : Store) :
  reachableWithoutUnpin MAX_HISTORY_ITEMS s -> holdsOf P s.
Proof. apply reachableVia_holdsOf. auto. Qed.

Lemma reachable_holdsOf (s : Store) :
  allowUnpin = true -> reachable MAX_HISTORY_ITEMS s -> holdsOf P s.
Proof.
  intros Ha. apply reachableVia_holdsOf. intros o s' _ Hf.
  rewrite Ha in Hf. discriminate.
Qed.
End Invariants.

(** *** Distinct texts (I2) *)

Lemma NoDup_map_filter (q : ClipboardEntry -> bool) (l : list ClipboardEntry) :
  NoDup (map text l) -> NoDup (map text (filter q l)).
Proof.
  induction l as [|x l IH]; simpl; intros H.
  - constructor.
  - inversion H as [|? ? Hx Hl]; subst.
    destruct (q x); simpl; auto. constructor; auto.
    intros Hin. apply Hx. apply in_map_iff in Hin as (y & Hy & Hin).
    apply filter_In in Hin as [Hin _]. rewrite <- Hy. now apply in_map.
Qed.

Lemma addEntryFinal_NoDup_text (t : jsstring) (now : Z) (uuid : string)
    (l : list ClipboardEntry) :
  NoDup (map text l) ->
  NoDup (map text (addEntryFinal MAX_HISTORY_ITEMS t now uuid l)).
Proof.
  intros H.
  destruct (addEntryFinal_capUnpinned t now uuid l)
    as [(l1 & e & l2 & Hsplit & He & _ & ->)|[Habs ->]];
    apply capUnpinned_NoDup_text.
  - subst l. rewrite map_app in H. simpl in H.
    apply (Permutation_NoDup
             (l' := text e :: map text l1 ++ map text l2)) in H.
    + simpl. now rewrite map_app.
    + symmetry. apply Permutation_middle.
  - simpl. constructor; auto. intros Hin.
    apply in_map_iff in Hin as (y & Hy & Hin). now apply (Habs y).
Qed.

Lemma reachable_unique_texts (s : Store) :
  reachable MAX_HISTORY_ITEMS s ->
  holdsOf (fun l => NoDup (map text l)) s.
Proof.
  apply (@reachable_holdsOf (fun l => NoDup (map text l)) true); auto.
  - constructor.
  - intros l H. eapply Permutation_NoDup; [|exact H].
    symmetry. apply Permutation_map, sortHistory_perm.
  - intros q l. apply NoDup_map_filter.
  - intros t now uuid l _. apply addEntryFinal_NoDup_text.
  - intros l1 e l2 _ H. rewrite map_app in *. exact H.
Qed.

(** C9: in every state a run can reach (runs may reload the history from
    the snapshot the store persisted), the texts of the history are
    pairwise distinct: two positions holding entries with the same text
    are the same position.  The same holds of the history that
    [loadHistory] would produce from the persisted snapshot. *)
Theorem text_uniqueness :
  forall s : Store,
    reachable MAX_HISTORY_ITEMS s ->
    NoDup (map text (history s)) /\
    (forall i j A B,
        nth_error (history s) i = Some A ->
        nth_error (history s) j = Some B ->
        text A = text B -> i = j) /\
    NoDup (map text (history (loadHistory s))).
Proof.
  intros s Hr.
  assert (Hu : forall s', reachable MAX_HISTORY_ITEMS s' ->
                          NoDup (map text (history s'))).
  { intros s' Hs'. apply (proj1 (reachable_unique_texts Hs')). }
  repeat split.
  - now apply Hu.
  - intros i j A B Hi Hj Heq.
    apply (proj1 (NoDup_nth_error (map text (history s))) (Hu s Hr)).
    + rewrite length_map. apply nth_error_Some. rewrite Hi. discriminate.
    + rewrite (map_nth_error text _ _ Hi), (map_nth_error text _ _ Hj).
      now rewrite Heq.
  - apply (Hu (step MAX_HISTORY_ITEMS LoadHistory true s)).
    now constructor.
Qed.

(** *** The list [addEntry] saves is already in canonical order *)

Lemma ordered_remove_middle (l1 l2 : list ClipboardEntry) (e : ClipboardEntry) :
  ordered (l1 ++ e :: l2) -> ordered (l1 ++ l2).
Proof.
  unfold ordered. induction l1 as [|a l1 IH]; simpl; intros H.
  - now inversion H.
  - inversion H as [|? ? Hs Ha]; subst. constructor; auto.
    rewrite Forall_forall in *. intros y Hy. apply Ha.
    apply in_app_or in Hy as [Hy|Hy]; apply in_or_app; auto.
    right. now right.
Qed.

Lemma ordered_app (l1 l2 : list ClipboardEntry) :
  ordered l1 -> ordered l2 ->
  (forall a b, In a l1 -> In b l2 -> (compareEntries a b <= 0)%Z) ->
  ordered (l1 ++ l2).
Proof.
  unfold ordered. induction 1 as [|a l1 Hs IH Ha]; simpl; intros H2 H; auto.
  constructor.
  - apply IH; auto.
  - rewrite Forall_forall in *. intros y Hy.
    apply in_app_or in Hy as [Hy|Hy]; [now apply Ha | apply H; auto].
Qed.

Lemma ordered_firstn (n : nat) (l : list ClipboardEntry) :
  ordered l -> ordered (firstn n l).
Proof.
  unfold ordered. intros H. revert n.
  induction H as [|a l Hs IH Ha]; intros [|n]; simpl; try constructor; auto.
  rewrite Forall_forall in *. intros y Hy. apply Ha.
  now apply firstn_In in Hy.
Qed.

Lemma ordered_filter_cons (p : bool) (x : ClipboardEntry)
    (rest : list ClipboardEntry) :
  ordered rest ->
  (forall e, In e rest -> (timestamp e <= timestamp x)%Z) ->
  ordered (filter (fun item => Bool.eqb (pinned item) p) (x :: rest)).
Proof.
  intros Ho Hts. simpl. destruct (Bool.eqb (pinned x) p) eqn:Hx.
  - constructor; [now apply filter_ordered|].
    rewrite Forall_forall. intros y Hy. apply filter_In in Hy as [Hy Hp].
    apply compareEntries_le. right. apply eqb_prop in Hx, Hp. split.
    + congruence.
    + now apply Hts.
  - now apply filter_ordered.
Qed.

Lemma capUnpinned_ordered_cons (cap : nat) (x : ClipboardEntry)
    (rest : list ClipboardEntry) :
  ordered rest ->
  (forall e, In e rest -> (timestamp e <= timestamp x)%Z) ->
  ordered (capUnpinned cap (x :: rest)).
Proof.
  intros Ho Hts. unfold capUnpinned.
  rewrite (filter_ext (fun item => pinned item)
             (fun item => Bool.eqb (pinned item) true))
    by (intros a; now destruct (pinned a)).
  rewrite (filter_ext (fun item => negb (pinned item))
             (fun item => Bool.eqb (pinned item) false))
    by (intros a; now destruct (pinned a)).
  apply ordered_app.
  - now apply ordered_filter_cons.
  - apply ordered_firstn. now apply ordered_filter_cons.
  - intros a b Ha Hb. apply firstn_In in Hb.
    apply filter_In in Ha as [_ Ha]. apply filter_In in Hb as [_ Hb].
    apply eqb_prop in Ha, Hb. apply compareEntries_le. left. now split.
Qed.

(** When the history is in canonical order and [now] is not earlier than
    any timestamp in it, the list [addEntry]'s updater returns is in
    canonical order already: the updater's return value and the list
    [saveHistory] sets are the same list. *)
Lemma addEntryFinal_ordered (t : jsstring) (now : Z) (uuid : string)
    (prevHistory : list ClipboardEntry) :
  ordered prevHistory ->
  (forall e, In e prevHistory -> (timestamp e <= now)%Z) ->
  ordered (addEntryFinal MAX_HISTORY_ITEMS t now uuid prevHistory).
Proof.
  intros Ho Hts.
  destruct (addEntryFinal_capUnpinned t now uuid prevHistory)
    as [(l1 & e & l2 & Hsplit & _ & _ & ->)|[_ ->]];
    apply capUnpinned_ordered_cons; auto.
  - rewrite Hsplit in Ho. now apply ordered_remove_middle in Ho.
  - intros y Hy. apply Hts. rewrite Hsplit.
    apply in_app_or in Hy as [Hy|Hy]; apply in_or_app; auto.
    right. now right.
Qed.

Lemma addEntryFinal_sorted (t : jsstring) (now : Z) (uuid : string)
    (prevHistory : list ClipboardEntry) :
  ordered prevHistory ->
  (forall e, In e prevHistory -> (timestamp e <= now)%Z) ->
  sortHistory (addEntryFinal MAX_HISTORY_ITEMS t now uuid prevHistory)
  = addEntryFinal MAX_HISTORY_ITEMS t now uuid prevHistory.
Proof.
  intros Ho Hts. now apply sortHistory_of_ordered, addEntryFinal_ordered.
Qed.

(** *** Canonical order (I1) *)

Lemma step_ordered (o : Op) (ok : bool) (s : Store) :
  clockSteady o s ->
  ordered (history s) -> ordered (history (step MAX_HISTORY_ITEMS o ok s)).
Proof.
  intros Hc H. destruct o as [t now uuid rl|i| |i|]; simpl step.
  - rewrite addEntry_history. destruct (isBlank t); auto.
    destruct rl; [|apply sortHistory_ordered].
    now apply addEntryFinal_ordered.
  - apply sortHistory_ordered.
  - unfold clearHistory. destruct (existsb _ _); apply sortHistory_ordered.
  - destruct (togglePinEntry_cases i ok s)
      as [->|(l1 & e & l2 & _ & _ &  ->)]; auto.
    apply sortHistory_ordered.
  - unfold loadHistory. cbn [localStorage setError setIsLoading].
    destruct (localStorage s) as [[l| |]|]; cbn;
      try apply sortHistory_ordered; constructor.
Qed.

Lemma reachableSteady_ordered (s : Store) :
  reachableSteady MAX_HISTORY_ITEMS s -> ordered (history s).
Proof.
  induction 1 as [|o ok s Hr IH Hc].
  - constructor.
  - now apply step_ordered.
Qed.

(** Canonical order, where it holds: in every state of a run during which
    the clock did not run backwards (asked only of the [addEntry] calls
    whose returned list is the state), a pinned entry stands before every
    unpinned one, and of two
    entries with the same pin flag the one with the larger timestamp stands
    first; entries with the same pin flag and the same timestamp are left
    by every save in the order they had in the list that was saved (the
    sort is stable). *)
Theorem ordering_invariant :
  forall s : Store,
    reachableSteady MAX_HISTORY_ITEMS s ->
    (forall i j A B,
        nth_error (history s) i = Some A ->
        nth_error (history s) j = Some B ->
        (pinned A = true -> pinned B = false -> i < j) /\
        (pinned A = pinned B -> (timestamp A > timestamp B)%Z -> i < j) /\
        (pinned A = pinned B -> (timestamp A >= timestamp B)%Z ->
         i <= j \/ timestamp A = timestamp B)) /\
    (forall updatedHistory saveOk p t,
        filter (sameKey p t) (history (saveHistory updatedHistory saveOk s))
        = filter (sameKey p t) updatedHistory).
Proof.
  intros s Hr. split.
  - intros i j A B Hi Hj.
    pose proof (reachableSteady_ordered Hr) as Ho.
    assert (Hji : j < i ->
                  (pinned B = true /\ pinned A = false) \/
                  (pinned B = pinned A /\ (timestamp A <= timestamp B)%Z)).
    { intros Hlt. apply compareEntries_le.
      apply (sorted_nth_le (cmp := compareEntries)
               (l := history s) (i := j) (j := i)); auto. }
    assert (Heq : i = j -> A = B) by (intros ->; congruence).
    repeat split.
    + intros HA HB. destruct (Nat.lt_trichotomy i j) as [Hlt|[He|Hgt]]; auto.
      * apply Heq in He. subst B. congruence.
      * destruct (Hji Hgt) as [[H1 H2]|[H1 H2]]; congruence.
    + intros Hp Ht. destruct (Nat.lt_trichotomy i j) as [Hlt|[He|Hgt]]; auto.
      * apply Heq in He. subst B. lia.
      * destruct (Hji Hgt) as [[H1 H2]|[H1 H2]]; [congruence | lia].
    + intros Hp Ht. destruct (Nat.le_gt_cases i j) as [Hle|Hgt]; auto.
      right. destruct (Hji Hgt) as [[H1 H2]|[H1 H2]]; [congruence | lia].
  - intros l ok p t. rewrite saveHistory_history. apply sortHistory_stable.
Qed.

(** *** Capacity (I3) *)

Lemma filter_length_perm (q : ClipboardEntry -> bool)
    (l l' : list ClipboardEntry) :
  Permutation l l' -> List.length (filter q l) = List.length (filter q l').
Proof.
  induction 1 as [|x l l' Hp IH|x y l|l l' l'' H1 IH1 H2 IH2]; simpl.
  - reflexivity.
  - destruct (q x); simpl; congruence.
  - destruct (q x), (q y); reflexivity.
  - congruence.
Qed.

Lemma unpinnedCount_sortHistory (l : list ClipboardEntry) :
  unpinnedCount (sortHistory l) = unpinnedCount l.
Proof. apply filter_length_perm, sortHistory_perm. Qed.

Lemma unpinnedCount_filter (q : ClipboardEntry -> bool)
    (l : list ClipboardEntry) :
  unpinnedCount (filter q l) <= unpinnedCount l.
Proof.
  unfold unpinnedCount. induction l as [|x l IH]; simpl; auto.
  destruct (q x), (pinned x) eqn:Hp; simpl; rewrite ?Hp; simpl; lia.
Qed.

Lemma unpinnedCount_middle (l1 l2 : list ClipboardEntry) (x : ClipboardEntry) :
  unpinnedCount (l1 ++ x :: l2)
  = unpinnedCount l1 + (if pinned x then 0 else 1) + unpinnedCount l2.
Proof.
  unfold unpinnedCount. rewrite filter_app, length_app. simpl.
  destruct (pinned x); simpl; lia.
Qed.

Lemma unpinnedCount_addEntryFinal (t : jsstring) (now : Z) (uuid : string)
    (l : list ClipboardEntry) :
  unpinnedCount (addEntryFinal MAX_HISTORY_ITEMS t now uuid l)
  <= MAX_HISTORY_ITEMS.
Proof.
  destruct (addEntryFinal_capUnpinned t now uuid l)
    as [(l1 & e & l2 & _ & _ & _ & ->)|[_ ->]];
    rewrite unpinnedCount_capUnpinned; lia.
Qed.

Lemma unpinnedCount_togglePinEntry (i : string) (ok : bool) (s : Store) :
  unpinnedCount (history (togglePinEntry i ok s))
  = if unpins (TogglePinEntry i) s then S (unpinnedCount (history s))
    else if existsb (fun entry => String.eqb (id entry) i) (history s)
         then pred (unpinnedCount (history s))
         else unpinnedCount (history s).
Proof.
  unfold togglePinEntry, unpins.
  destruct (findIndex _ (history s)) as [k|] eqn:Hk.
  - destruct (findIndex_Some _ _ Hk)
      as (l1 & x & l2 & Hsplit & _ & Hx & _ & Hnth & Hs1 & Hs2).
    rewrite Hnth, Hs1, Hs2. cbn [history showNotification emit].
    rewrite saveHistory_history, unpinnedCount_sortHistory.
    replace (existsb _ (history s)) with true.
    + rewrite Hsplit, !unpinnedCount_middle. simpl.
      destruct (pinned x); simpl; lia.
    + symmetry. apply existsb_exists. exists x. split; auto.
      rewrite Hsplit. apply in_elt.
  - replace (existsb _ (history s)) with false; auto.
    symmetry. apply not_true_is_false. intros He.
    apply existsb_exists in He as (x & Hin & Hx).
    rewrite (findIndex_None _ _ Hk x Hin) in Hx. discriminate.
Qed.

Lemma reachableWithoutUnpin_capacity (s : Store) :
  reachableWithoutUnpin MAX_HISTORY_ITEMS s ->
  holdsOf (fun l => unpinnedCount l <= MAX_HISTORY_ITEMS) s.
Proof.
  apply (@reachableWithoutUnpin_holdsOf
           (fun l => unpinnedCount l <= MAX_HISTORY_ITEMS) false).
  - unfold unpinnedCount. simpl. lia.
  - intros l H. now rewrite unpinnedCount_sortHistory.
  - intros q l H. pose proof (unpinnedCount_filter q l). lia.
  - intros t now uuid l _ _. apply unpinnedCount_addEntryFinal.
  - intros l1 e l2 He H. rewrite unpinnedCount_middle in *.
    simpl. rewrite (He eq_refl) in *. simpl. lia.
Qed.

(** C1, as the code has it: the unpinned entries number at most
    [MAX_HISTORY_ITEMS] in every state of a run in which no
    [togglePinEntry] unpins an entry, and in any state whatever right after
    an [addEntry] that is not rejected; [deleteEntry] and [clearHistory]
    never raise the number; a [togglePinEntry] that unpins raises it by
    exactly one and evicts nothing. *)
Theorem capacity_restored_by_addEntry :
  forall s : Store,
    (reachableWithoutUnpin MAX_HISTORY_ITEMS s ->
     unpinnedCount (history s) <= MAX_HISTORY_ITEMS) /\
    (forall t now uuid saveOk returnedLast,
        isBlank t = false ->
        unpinnedCount
          (history (addEntry MAX_HISTORY_ITEMS t now uuid saveOk returnedLast s))
        <= MAX_HISTORY_ITEMS) /\
    (forall i saveOk,
        unpinnedCount (history (deleteEntry i saveOk s))
        <= unpinnedCount (history s)) /\
    (forall saveOk, unpinnedCount (history (clearHistory saveOk s)) = 0) /\
    (forall i saveOk,
        unpins (TogglePinEntry i) s = true ->
        unpinnedCount (history (togglePinEntry i saveOk s))
        = S (unpinnedCount (history s))) /\
    (forall i saveOk,
        unpins (TogglePinEntry i) s = false ->
        unpinnedCount (history (togglePinEntry i saveOk s))
        <= unpinnedCount (history s)).
Proof.
  intros s. repeat split.
  - intros Hr. apply (proj1 (reachableWithoutUnpin_capacity Hr)).
  - intros t now uuid ok rl Hb. rewrite addEntry_history, Hb.
    destruct rl; rewrite ?unpinnedCount_sortHistory;
      apply unpinnedCount_addEntryFinal.
  - intros i ok. cbn [deleteEntry history showNotification emit].
    rewrite saveHistory_history, unpinnedCount_sortHistory.
    apply unpinnedCount_filter.
  - intros ok.
    assert (Hh : history (clearHistory ok s)
                 = sortHistory (filter (fun item => pinned item) (history s))).
    { unfold clearHistory. destruct (existsb _ _); reflexivity. }
    rewrite Hh, unpinnedCount_sortHistory. unfold unpinnedCount.
    rewrite filter_none; auto.
    intros e He. apply filter_In in He as [_ He]. now rewrite He.
  - intros i ok Hu. now rewrite unpinnedCount_togglePinEntry, Hu.
  - intros i ok Hu. rewrite unpinnedCount_togglePinEntry, Hu.
    destruct (existsb _ _); lia.
Qed.

(** *** Promotion of an existing text *)

Lemma filter_text_unique (l : list ClipboardEntry) (x : ClipboardEntry) :
  NoDup (map text l) -> In x l ->
  filter (fun y => jsstring_eqb (text y) (text x)) l = [x].
Proof.
  induction l as [|a l IH]; simpl; intros Hnd Hin.
  - destruct Hin.
  - inversion Hnd as [|? ? Ha Hl]; subst. destruct Hin as [->|Hin].
    + replace (jsstring_eqb (text x) (text x)) with true
        by (symmetry; now apply jsstring_eqb_eq).
      f_equal. apply filter_none. intros e He.
      apply not_true_is_false. intros Heq. apply jsstring_eqb_eq in Heq.
      apply Ha. rewrite <- Heq. now apply in_map.
    + replace (jsstring_eqb (text a) (text x)) with false; auto.
      symmetry. apply not_true_is_false. intros Heq.
      apply jsstring_eqb_eq in Heq. apply Ha. rewrite Heq. now apply in_map.
Qed.

Lemma addEntry_promotes (E : ClipboardEntry) (now : Z) (uuid : string)
    (ok rl : bool) (s : Store) :
  NoDup (map text (history s)) -> In E (history s) ->
  isBlank (text E) = false ->
  pinned E = true \/ 1 <= MAX_HISTORY_ITEMS ->
  promoted (history s)
    (history (addEntry MAX_HISTORY_ITEMS (text E) now uuid ok rl s)) E now.
Proof.
  intros Hnd Hin Hb Hcap. rewrite addEntry_history, Hb.
  set (final := addEntryFinal MAX_HISTORY_ITEMS (text E) now uuid (history s)).
  assert (Hperm : Permutation
                    (if rl then final else sortHistory final) final).
  { destruct rl; [reflexivity | apply sortHistory_perm]. }
  revert Hperm. generalize (if rl then final else sortHistory final).
  intros l Hperm.
  pose proof (@addEntryFinal_NoDup_text (text E) now uuid _ Hnd) as Hnd'.
  fold final in Hnd'.
  destruct (addEntryFinal_capUnpinned (text E) now uuid (history s))
    as [(l1 & e & l2 & Hsplit & He & _ & Hfin)|[Habs _]].
  2:{ exfalso. now apply (Habs E). }
  fold final in Hfin.
  assert (e = E) as ->.
  { apply (NoDup_map_eq text (history s)); auto.
    rewrite Hsplit. apply in_elt. }
  repeat split.
  - change (text E) with (text (withTimestamp E now)).
    apply filter_text_unique.
    + eapply Permutation_NoDup; [|exact Hnd'].
      symmetry. now apply Permutation_map.
    + apply (Permutation_in _ (Permutation_sym Hperm)).
      rewrite Hfin. apply capUnpinned_head. exact Hcap.
  - intros x Hx. apply (Permutation_in _ Hperm) in Hx. rewrite Hfin in Hx.
    apply capUnpinned_incl in Hx. destruct Hx as [<-|Hx]; auto.
    right. rewrite Hsplit. apply in_app_or in Hx as [Hx|Hx];
      apply in_or_app; auto. right. now right.
  - rewrite (Permutation_length Hperm), Hfin.
    etransitivity; [apply capUnpinned_length|].
    rewrite Hsplit. simpl. rewrite !length_app. simpl. lia.
Qed.

Lemma reachable_nonblank (s : Store) :
  reachable MAX_HISTORY_ITEMS s ->
  holdsOf (fun l => forall e, In e l -> isBlank (text e) = false) s.
Proof.
  apply (@reachable_holdsOf
           (fun l => forall e, In e l -> isBlank (text e) = false) true); auto.
  - intros e [].
  - intros l H e He. apply H. now apply sortHistory_In.
  - intros q l H e He. apply H. now apply filter_In in He.
  - intros t now uuid l Hb H x Hx.
    destruct (addEntryFinal_capUnpinned t now uuid l)
      as [(l1 & e & l2 & Hsplit & He & _ & Hfin)|[_ Hfin]];
      rewrite Hfin in Hx; apply capUnpinned_incl in Hx;
      destruct Hx as [<-|Hx]; simpl; auto.
    + rewrite He. exact Hb.
    + apply H. rewrite Hsplit. apply in_app_or in Hx as [Hx|Hx];
        apply in_or_app; auto. right. now right.
  - intros l1 e l2 _ H x Hx.
    apply in_app_or in Hx as [Hx|[<-|Hx]].
    + apply H, in_or_app. now left.
    + apply (H e), in_elt.
    + apply H, in_or_app. right. now right.
Qed.

Lemma reachable_zero_cap (s : Store) :
  reachable MAX_HISTORY_ITEMS s ->
  holdsOf (fun l => MAX_HISTORY_ITEMS = 0 -> l = []) s.
Proof.
  apply (@reachable_holdsOf
           (fun l => MAX_HISTORY_ITEMS = 0 -> l = []) true); auto.
  - intros l H H0. now rewrite (H H0).
  - intros q l H H0. now rewrite (H H0).
  - intros t now uuid l _ H H0. rewrite (H H0).
    destruct (addEntryFinal_capUnpinned t now uuid [])
      as [(l1 & e & l2 & Hsplit & _)|[_ ->]].
    + destruct l1; discriminate.
    + rewrite H0. reflexivity.
  - intros l1 e l2 _ H H0. specialize (H H0). destruct l1; discriminate.
Qed.

Lemma promoted_promotedEntry (before after : list ClipboardEntry)
    (E : ClipboardEntry) (now : Z) :
  promoted before after E now -> promotedEntry before after E now.
Proof.
  intros (H1 & H2 & H3). exists (withTimestamp E now).
  assert (Hin : forall x, In x after -> text x = text E ->
                          x = withTimestamp E now).
  { intros x Hx Ht.
    assert (Hf : In x (filter (fun y => jsstring_eqb (text y) (text E)) after)).
    { apply filter_In. split; auto. now apply jsstring_eqb_eq. }
    rewrite H1 in Hf. destruct Hf as [<-|[]]. reflexivity. }
  repeat split; auto.
  assert (Hf : In (withTimestamp E now)
                 (filter (fun y => jsstring_eqb (text y) (text E)) after))
    by (rewrite H1; now left).
  now apply filter_In in Hf.
Qed.

(** C4: calling [addEntry] with the text of an entry [E] of the history
    leaves exactly one entry with that text; it has the identifier of [E],
    the pin flag of [E] and the time of the call as its timestamp; every
    other entry of the result was in the history before, and the history
    did not grow.  This holds of every history with pairwise distinct
    texts (I2) when the text passes [addEntry]'s guard (I4) and the cap is
    positive or [E] is pinned, and so of every reachable state. *)
Theorem addEntry_existing_text :
  forall (E : ClipboardEntry) (now : Z) (uuid : string)
         (saveOk returnedLast : bool) (s : Store),
    (NoDup (map text (history s)) -> In E (history s) ->
     isBlank (text E) = false ->
     pinned E = true \/ 1 <= MAX_HISTORY_ITEMS ->
     promotedEntry (history s)
       (history
          (addEntry MAX_HISTORY_ITEMS (text E) now uuid saveOk returnedLast s))
       E now) /\
    (reachable MAX_HISTORY_ITEMS s -> In E (history s) ->
     promotedEntry (history s)
       (history
          (addEntry MAX_HISTORY_ITEMS (text E) now uuid saveOk returnedLast s))
       E now).
Proof.
  intros E now uuid ok rl s. split.
  - intros Hnd Hin Hb Hcap. now apply promoted_promotedEntry, addEntry_promotes.
  - intros Hr Hin. apply promoted_promotedEntry, addEntry_promotes; auto.
    + apply (proj1 (reachable_unique_texts Hr)).
    + now apply (proj1 (reachable_nonblank Hr)).
    + right. pose proof (proj1 (reachable_zero_cap Hr)) as H0.
      cbn beta in H0.
      destruct (Nat.eq_dec MAX_HISTORY_ITEMS 0) as [Hm|Hm]; [|lia].
      rewrite (H0 Hm) in Hin. destruct Hin.
Qed.

(** *** Mutations and the save *)

(** C6: a mutating operation returns early, leaving the store as it was,
    exactly in its two guarded cases (a blank text for [addEntry], an
    identifier no entry carries for [togglePinEntry]).  In every other case
    it computes one complete list, makes a single [setItem] attempt, before
    anything else, whose payload is that list in canonical order, and the
    list becomes the in-memory history whether the attempt succeeds or
    not.  A failed attempt leaves the storage cell as it was and sets the
    advisory error; a successful one stores the payload. *)
Theorem mutation_independent_of_save :
  forall (o : Op) (saveOk : bool) (s : Store),
    mutating o = true ->
    (returnsEarly o s /\ step MAX_HISTORY_ITEMS o saveOk s = s) \/
    (~ returnsEarly o s /\
     exists newHistory rest,
        computedBy MAX_HISTORY_ITEMS o (history s) newHistory /\
        history (step MAX_HISTORY_ITEMS o saveOk s) = newHistory /\
        history (step MAX_HISTORY_ITEMS o (negb saveOk) s) = newHistory /\
        effects (step MAX_HISTORY_ITEMS o saveOk s)
          = effects s ++ SetItem (sortHistory newHistory) saveOk :: rest /\
        (forall snapshot ok, ~ In (SetItem snapshot ok) rest) /\
        localStorage (step MAX_HISTORY_ITEMS o saveOk s)
          = (if saveOk then Some (SnapshotJSON (sortHistory newHistory))
             else localStorage s) /\
        error (step MAX_HISTORY_ITEMS o saveOk s)
          = (if saveOk then error s else Some saveError) /\
        isLoading (step MAX_HISTORY_ITEMS o saveOk s) = isLoading s).
Proof.
  intros o saveOk s Hm.
  assert (Hnot : forall (ok : bool) m snapshot ok',
             ~ In (SetItem snapshot ok')
                 ((if ok then []
                   else [ConsoleError "Error saving history to localStorage:"])
                    ++ [Notification "Clipboard Pro" m])).
  { intros [] m sn ok' Hin; simpl in Hin; intuition discriminate. }
  assert (Hnot' : forall (ok : bool) snapshot ok',
             ~ In (SetItem snapshot ok')
                 (if ok then []
                  else [ConsoleError "Error saving history to localStorage:"])).
  { intros [] sn ok' Hin; simpl in Hin; intuition discriminate. }
  assert (Hidem : forall l, sortHistory (sortHistory l) = sortHistory l).
  { intros l. apply sortHistory_of_ordered, sortHistory_ordered. }
  assert (Hsaved : forall l m,
             exists rest,
               effects (showNotification m (saveHistory l saveOk s))
               = effects s ++ SetItem (sortHistory (sortHistory l)) saveOk
                   :: rest /\
               (forall snapshot ok, ~ In (SetItem snapshot ok) rest) /\
               localStorage (showNotification m (saveHistory l saveOk s))
               = (if saveOk
                  then Some (SnapshotJSON (sortHistory (sortHistory l)))
                  else localStorage s) /\
               error (showNotification m (saveHistory l saveOk s))
               = (if saveOk then error s else Some saveError) /\
               isLoading (showNotification m (saveHistory l saveOk s))
               = isLoading s).
  { intros l m. eexists.
    rewrite showNotification_saveHistory_effects, Hidem.
    split; [reflexivity|]. split; [apply Hnot|].
    cbn [localStorage error isLoading showNotification emit].
    rewrite saveHistory_localStorage, saveHistory_error,
      saveHistory_isLoading. auto. }
  destruct o as [t now uuid rl|i| |i|]; simpl step; try discriminate Hm.
  - unfold addEntry. destruct (isBlank t) eqn:Hb.
    + left. split; auto. apply isBlank_whitespace in Hb.
      cbn [returnsEarly]. now apply forallb_forall.
    + right. split.
      { intros He. cbn [returnsEarly] in He.
        apply (proj2 (forallb_forall _ _)) in He.
        apply isBlank_whitespace in He. congruence. }
      set (final := addEntryFinal MAX_HISTORY_ITEMS t now uuid (history s)).
      assert (Hcomp : forall l, Permutation l final ->
                        computedBy MAX_HISTORY_ITEMS (AddEntry t now uuid rl)
                          (history s) l).
      { intros l Hl. split.
        - rewrite (filter_length_perm _ Hl : unpinnedCount l = unpinnedCount final).
          apply unpinnedCount_addEntryFinal.
        - intros e He. apply (Permutation_in _ Hl) in He. unfold final in He.
          destruct (addEntryFinal_capUnpinned t now uuid (history s))
            as [(l1 & x & l2 & Hsplit & Hx & _ & Hfin)|[_ Hfin]];
            rewrite Hfin in He; apply capUnpinned_incl in He;
            destruct He as [<-|He]; auto.
          left. rewrite Hsplit. apply in_app_or in He as [He|He];
            apply in_or_app; auto. right. now right. }
      destruct rl.
      * exists final. eexists.
        cbn [history setHistory effects localStorage error isLoading].
        rewrite saveHistory_effects.
        split; [now apply Hcomp|].
        repeat split; try reflexivity.
        -- apply Hnot'.
        -- apply saveHistory_localStorage.
        -- apply saveHistory_error.
        -- apply saveHistory_isLoading.
      * exists (sortHistory final). eexists.
        rewrite saveHistory_effects, Hidem.
        split; [apply Hcomp, sortHistory_perm|].
        repeat split; try reflexivity.
        -- apply Hnot'.
        -- apply saveHistory_localStorage.
        -- apply saveHistory_error.
        -- apply saveHistory_isLoading.
  - right. split; [intros []|]. unfold deleteEntry.
    destruct (Hsaved (filter (fun entry => negb (String.eqb (id entry) i))
                        (history s)) removedMessage)
      as (rest & H1 & H2 & H3 & H4 & H5).
    exists (sortHistory
              (filter (fun entry => negb (String.eqb (id entry) i))
                 (history s))).
    exists rest. split; [|repeat split; auto].
    intros e. rewrite sortHistory_In, filter_In.
    now rewrite negb_true_iff, String.eqb_neq.
  - right. split; [intros []|].
    assert (Hc : computedBy MAX_HISTORY_ITEMS ClearHistory (history s)
                   (sortHistory
                      (filter (fun item => pinned item) (history s)))).
    { intros e. now rewrite sortHistory_In, filter_In. }
    unfold clearHistory. destruct (existsb _ (history s)).
    + destruct (Hsaved (filter (fun item => pinned item) (history s))
                  clearedMessage)
        as (rest & H1 & H2 & H3 & H4 & H5).
      exists (sortHistory (filter (fun item => pinned item) (history s))).
      exists rest. split; [exact Hc|repeat split; auto].
    + exists (sortHistory (filter (fun item => pinned item) (history s))).
      eexists. rewrite saveHistory_effects, Hidem.
      split; [exact Hc|]. repeat split; try reflexivity.
      * apply Hnot'.
      * apply saveHistory_localStorage.
      * apply saveHistory_error.
      * apply saveHistory_isLoading.
  - unfold togglePinEntry.
    destruct (findIndex _ (history s)) as [k|] eqn:Hk.
    + right.
      destruct (findIndex_Some _ _ Hk)
        as (l1 & x & l2 & Hsplit & _ & Hx & _ & Hnth & Hs1 & Hs2).
      apply String.eqb_eq in Hx.
      assert (Hin : In x (history s)) by (rewrite Hsplit; apply in_elt).
      split; [intros He; now apply (He x)|].
      rewrite Hnth, Hs1, Hs2.
      destruct (Hsaved (l1 ++ withPinned x (negb (pinned x)) :: l2)
                  (if pinned (withPinned x (negb (pinned x)))
                   then "Item pinned." else "Item unpinned."))
        as (rest & H1 & H2 & H3 & H4 & H5).
      exists (sortHistory (l1 ++ withPinned x (negb (pinned x)) :: l2)).
      exists rest. split; [|repeat split; auto].
      split.
      * unfold sortHistory. rewrite sort_length, Hsplit, !length_app.
        reflexivity.
      * exists x. repeat split; auto.
        apply sortHistory_In. apply in_elt.
    + left. split; auto. intros e He Hid.
      apply String.eqb_eq in Hid.
      rewrite (findIndex_None _ _ Hk e He) in Hid. discriminate.
Qed.

(** *** Unpinning at the cap, for any positive cap *)

Lemma fresh_text (l : list ClipboardEntry) :
  exists t : jsstring,
    isBlank t = false /\ forall e, In e l -> text e <> t.
Proof.
  exists (repeat 120%N (S (list_max (map (fun e => List.length (text e)) l)))).
  split.
  - apply not_true_is_false. intros H. apply isBlank_whitespace in H.
    simpl in H. discriminate H.
  - intros e He Heq.
    assert (Hle : List.length (text e)
                  <= list_max (map (fun e => List.length (text e)) l)).
    { pose proof (proj1 (list_max_le
                           (map (fun e => List.length (text e)) l) _)
                    (Nat.le_refl _)) as Hall.
      rewrite Forall_forall in Hall. apply Hall.
      apply in_map_iff. now exists e. }
    rewrite Heq, repeat_length in Hle. lia.
Qed.

Lemma ordered_head_pinned (x p : ClipboardEntry) (l : list ClipboardEntry) :
  ordered (x :: l) -> In p (x :: l) -> pinned p = true -> pinned x = true.
Proof.
  intros Ho [->|Hp] Hpin; auto.
  inversion Ho as [|? ? _ Hx]; subst. rewrite Forall_forall in Hx.
  apply Hx, compareEntries_le in Hp. destruct Hp as [[H _]|[H _]]; congruence.
Qed.

Lemma reachable_pinned_head (k : nat) :
  1 <= MAX_HISTORY_ITEMS -> k <= MAX_HISTORY_ITEMS ->
  exists s p rest,
    reachable MAX_HISTORY_ITEMS s /\ history s = p :: rest /\
    pinned p = true /\ unpinnedCount (history s) = k.
Proof.
  intros Hcap. induction k as [|k IH]; intros Hk.
  - exists (togglePinEntry "id-a" true
              (addEntry MAX_HISTORY_ITEMS (lit "a") 1 "id-a" true false
                 initialStore)).
    exists {| id := "id-a"; text := lit "a"; timestamp := 1; pinned := true |}.
    exists [].
    split.
    + apply (@reachable_step _ _ (TogglePinEntry "id-a")); [|exact I].
      apply (@reachable_step _ _ (AddEntry (lit "a") 1 "id-a" false));
        [|exact I].
      apply reachable_initial.
    + destruct MAX_HISTORY_ITEMS as [|c]; [lia|]. repeat split.
  - destruct IH as (s & p & rest & Hr & Hh & Hp & Hc); [lia|].
    destruct (fresh_text (history s)) as (t & Hb & Hfresh).
    set (uuid := string_of_list_ascii (map ascii_of_N t)).
    set (now := (Z.of_nat k + 2)%Z).
    set (s' := addEntry MAX_HISTORY_ITEMS t now uuid true false s).
    assert (Hh' : history s'
                  = sortHistory
                      (capUnpinned MAX_HISTORY_ITEMS
                         ({| id := uuid; text := t; timestamp := now;
                             pinned := false |} :: history s))).
    { unfold s'. rewrite addEntry_history, Hb.
      destruct (addEntryFinal_capUnpinned t now uuid (history s))
        as [(l1 & e & l2 & Hsplit & He & _)|[_ ->]]; auto.
      exfalso. apply (Hfresh e); auto. rewrite Hsplit. apply in_elt. }
    assert (Hin : In p (history s')).
    { rewrite Hh'. apply sortHistory_In, capUnpinned_pinned; auto.
      right. rewrite Hh. now left. }
    assert (Hx : exists x rest', history s' = x :: rest').
    { destruct (history s') as [|x rest']; [destruct Hin | eauto]. }
    destruct Hx as (x & rest' & Hx).
    exists s', x, rest'. split; [|split; [|split]].
    + apply (@reachable_step _ _ (AddEntry t now uuid false)); auto.
    + exact Hx.
    + apply (@ordered_head_pinned x p rest'); auto.
      * rewrite <- Hx, Hh'. apply sortHistory_ordered.
      * now rewrite <- Hx.
    + rewrite Hh', unpinnedCount_sortHistory, unpinnedCount_capUnpinned.
      change (unpinnedCount (_ :: history s))
        with (S (unpinnedCount (history s))).
      rewrite Hc. lia.
Qed.

(** Whatever the positive cap, some run ends with more unpinned entries
    than the cap: fill the unpinned partition next to a pinned entry, then
    unpin that entry. *)
Lemma unpin_exceeds_any_cap :
  1 <= MAX_HISTORY_ITEMS ->
  exists s,
    reachable MAX_HISTORY_ITEMS s /\
    unpinnedCount (history s) = S MAX_HISTORY_ITEMS.
Proof.
  intros Hcap.
  destruct (reachable_pinned_head Hcap (Nat.le_refl _))
    as (s & p & rest & Hr & Hh & Hp & Hc).
  exists (togglePinEntry (id p) true s). split.
  - apply (@reachable_step _ _ (TogglePinEntry (id p))); auto.
  - rewrite unpinnedCount_togglePinEntry.
    replace (unpins (TogglePinEntry (id p)) s) with true; [now rewrite Hc|].
    unfold unpins. rewrite Hh. simpl. now rewrite String.eqb_refl.
Qed.

End ManagerFacts.

(** ** The pin-then-overflow scenario, [MAX_HISTORY_ITEMS = 3] *)

Ltac solve_le :=
  apply compareEntries_le; simpl;
  first [ left; split; reflexivity | right; split; [reflexivity | lia] ].

Ltac solve_ordered := unfold ordered; repeat constructor; solve_le.

Lemma insertSorted_here (x y : ClipboardEntry) (l : list ClipboardEntry) :
  (compareEntries x y <= 0)%Z ->
  insertSorted compareEntries x (y :: l) = x :: y :: l.
Proof. intros H. simpl. apply Z.leb_le in H. now rewrite H. Qed.

Lemma insertSorted_later (x y : ClipboardEntry) (l : list ClipboardEntry) :
  (compareEntries y x <= 0)%Z -> (compareEntries x y <> 0)%Z ->
  insertSorted compareEntries x (y :: l)
  = y :: insertSorted compareEntries x l.
Proof.
  intros H1 H2. simpl.
  destruct (Z.leb_spec (compareEntries x y) 0) as [Hle|Hgt]; auto.
  exfalso. revert H1 H2 Hle. unfold compareEntries, b2z.
  destruct (pinned x), (pinned y); simpl; lia.
Qed.

(** C2, as the code has it: with a cap of three, adding "a", "b", "c" at
    increasing times, pinning "a", then adding "d" and "e" leaves "a"
    (pinned), "e", "d", "c": the last [addEntry] evicts "b", the oldest
    unpinned entry. *)
Theorem pin_scenario_evicts_oldest :
  forall (ida idb idc idd ide : string) (t1 t2 t3 t4 t5 : Z)
         (saveOk returnedLast : nat -> bool),
    (t1 < t2)%Z -> (t2 < t3)%Z -> (t3 < t4)%Z -> (t4 < t5)%Z ->
    idb <> ida -> idc <> ida ->
    history
      (run 3
         (pinScenario ida idb idc idd ide t1 t2 t3 t4 t5 saveOk returnedLast)
         initialStore)
    = [ {| id := ida; text := lit "a"; timestamp := t1; pinned := true |};
        {| id := ide; text := lit "e"; timestamp := t5; pinned := false |};
        {| id := idd; text := lit "d"; timestamp := t4; pinned := false |};
        {| id := idc; text := lit "c"; timestamp := t3; pinned := false |} ].
Proof.
  intros ida idb idc idd ide t1 t2 t3 t4 t5 ok rl
         H12 H23 H34 H45 Hba Hca.
  assert (Hland : forall (b : bool) l,
             ordered l -> (if b then l else sortHistory l) = l).
  { intros [] l Hl; [reflexivity | now apply sortHistory_of_ordered]. }
  unfold pinScenario, run. cbn [fold_left fst snd step].
  set (A := mkEntry ida (lit "a") t1 false).
  set (B := mkEntry idb (lit "b") t2 false).
  set (C := mkEntry idc (lit "c") t3 false).
  set (s1 := addEntry 3 (lit "a") t1 ida (ok 1) (rl 1) initialStore).
  assert (E1 : history s1 = [A]).
  { unfold s1. rewrite addEntry_history.
    change (isBlank (lit "a")) with false. cbv iota. simpl addEntryFinal.
    apply Hland. solve_ordered. }
  set (s2 := addEntry 3 (lit "b") t2 idb (ok 2) (rl 2) s1).
  assert (E2 : history s2 = [B; A]).
  { unfold s2. rewrite addEntry_history, E1.
    change (isBlank (lit "b")) with false. cbv iota. simpl addEntryFinal.
    apply Hland. solve_ordered. }
  set (s3 := addEntry 3 (lit "c") t3 idc (ok 3) (rl 3) s2).
  assert (E3 : history s3 = [C; B; A]).
  { unfold s3. rewrite addEntry_history, E2.
    change (isBlank (lit "c")) with false. cbv iota. simpl addEntryFinal.
    apply Hland. solve_ordered. }
  set (s4 := togglePinEntry ida (ok 4) s3).
  assert (E4 : history s4 = [withPinned A true; C; B]).
  { unfold s4, togglePinEntry. rewrite E3. simpl findIndex.
    rewrite (proj2 (String.eqb_neq idc ida) Hca).
    rewrite (proj2 (String.eqb_neq idb ida) Hba).
    rewrite String.eqb_refl. simpl nth_error.
    cbn [history showNotification emit]. rewrite saveHistory_history.
    unfold slice, sliceFrom. simpl app. unfold sortHistory. cbn [sort].
    change (insertSorted compareEntries (withPinned A true) [])
      with [withPinned A true].
    rewrite (@insertSorted_later B) by (unfold compareEntries; simpl; lia).
    change (insertSorted compareEntries B []) with [B].
    rewrite (@insertSorted_later C) by (unfold compareEntries; simpl; lia).
    rewrite insertSorted_here by solve_le.
    reflexivity. }
  set (s5 := addEntry 3 (lit "d") t4 idd (ok 5) (rl 5) s4).
  assert (E5 : history s5
               = [withPinned A true; mkEntry idd (lit "d") t4 false; C; B]).
  { unfold s5. rewrite addEntry_history, E4.
    change (isBlank (lit "d")) with false. cbv iota. simpl addEntryFinal.
    apply Hland. solve_ordered. }
  rewrite addEntry_history, E5.
  change (isBlank (lit "e")) with false. cbv iota. simpl addEntryFinal.
  apply Hland. solve_ordered.
Qed.

(** ** Concrete runs *)

Lemma exampleStore_history : history exampleStore = [entryY; entryX].
Proof. vm_compute. reflexivity. Qed.

Lemma exampleStore_reachable : reachable 3 exampleStore.
Proof. apply reachable_run. constructor. Qed.

Lemma exampleStore_steady : reachableSteady 3 exampleStore.
Proof.
  unfold exampleStore, run. cbn [fold_left fst snd].
  repeat (apply reachable_step; [|try exact I]).
  - apply reachable_initial.
  - intros e [].
Qed.

(** [loadHistory] sorts what it reads and does nothing else to it: a
    snapshot written by something other than [saveHistory] keeps the
    duplicates it has.  Runs of the store never write such a snapshot. *)
Remark loadHistory_does_not_deduplicate :
  map text (history (loadHistory foreignSnapshotStore)) = [lit "t"; lit "t"].
Proof. vm_compute. reflexivity. Qed.

(** The steady clock is needed where the updater's return value is the
    state: that list is not sorted, only partitioned, so an entry stamped
    earlier than the ones before it stays in front of them in memory (the
    snapshot written is sorted all the same) until the next save. *)
Remark backwardsClockRun_history :
  map timestamp (history (run 3 backwardsClockRun initialStore)) = [10; 20]%Z
  /\ localStorage (run 3 backwardsClockRun initialStore)
     = Some (SnapshotJSON
               (sortHistory (history (run 3 backwardsClockRun initialStore)))).
Proof. split; vm_compute; reflexivity. Qed.

(** C3, at the failing input: "b" is added at time 20 and "c" at time 10,
    the updater's return value being the state.  [saveHistory] sorts and
    stores "b", "c", but the history in memory is the list the updater
    returned, "c", "b": two unpinned entries of which the one with the
    larger timestamp comes second.  The state is reached by store
    operations alone, so the ordering fails in a reachable state. *)
Theorem backwards_clock_breaks_order :
  reachable 3 (run 3 backwardsClockRun initialStore) /\
  history (run 3 backwardsClockRun initialStore) = [entryC10; entryB20] /\
  localStorage (run 3 backwardsClockRun initialStore)
  = Some (SnapshotJSON [entryB20; entryC10]) /\
  ~ (forall s : Store,
        reachable 3 s ->
        forall i j A B,
          nth_error (history s) i = Some A ->
          nth_error (history s) j = Some B ->
          pinned A = pinned B -> (timestamp A > timestamp B)%Z -> i < j).
Proof.
  assert (Hr : reachable 3 (run 3 backwardsClockRun initialStore)).
  { apply reachable_run. apply reachable_initial. }
  assert (Hh : history (run 3 backwardsClockRun initialStore)
               = [entryC10; entryB20]) by (vm_compute; reflexivity).
  split; [exact Hr|]. split; [exact Hh|].
  split; [vm_compute; reflexivity|].
  intros H. specialize (H _ Hr 1 0 entryB20 entryC10).
  rewrite Hh in H.
  specialize (H eq_refl eq_refl eq_refl eq_refl). lia.
Qed.

(** C1, counterexample: with a cap of three, "a" is added and pinned, "b",
    "c", "d" are added (three unpinned entries, the cap), and "a" is
    unpinned: the reachable state has four unpinned entries. *)
Lemma unpin_exceeds_cap :
  ~ (forall s : Store, reachable 3 s -> unpinnedCount (history s) <= 3).
Proof.
  intros H.
  assert (Hr : reachable 3 (run 3 unpinScenario initialStore)).
  { apply reachable_run. constructor. }
  apply H in Hr. vm_compute in Hr.
  repeat apply le_S_n in Hr. inversion Hr.
Qed.

Lemma capacity_restored_by_addEntry_witness :
  reachableWithoutUnpin 3 (run 3 (firstn 5 unpinScenario) initialStore) /\
  unpinnedCount (history (run 3 (firstn 5 unpinScenario) initialStore)) <= 3.
Proof.
  assert (Hr : reachableWithoutUnpin 3
                 (run 3 (firstn 5 unpinScenario) initialStore)).
  { unfold unpinScenario, run. cbn [firstn fold_left fst snd].
    repeat (apply reachable_step; [|reflexivity]). apply reachable_initial. }
  split; [exact Hr|].
  exact (proj1 (capacity_restored_by_addEntry 3
                  (run 3 (firstn 5 unpinScenario) initialStore)) Hr).
Defined.

(** C2, counterexample: at identifiers "id-a" .. "id-e" and times 1 .. 5
    the scenario does not end in "a", "e", "d", "b". *)
Lemma pin_scenario_does_not_keep_b :
  map (fun e => (text e, pinned e))
    (history
       (run 3
          (pinScenario "id-a" "id-b" "id-c" "id-d" "id-e" 1 2 3 4 5
             (fun _ => true) (fun _ => true))
          initialStore))
  <> [ (lit "a", true); (lit "e", false); (lit "d", false); (lit "b", false) ].
Proof. vm_compute. intros H. discriminate H. Qed.

Lemma pin_scenario_evicts_oldest_witness :
  history
    (run 3
       (pinScenario "id-a" "id-b" "id-c" "id-d" "id-e" 1 2 3 4 5
          (fun _ => true) (fun _ => true))
       initialStore)
  = [ {| id := "id-a"; text := lit "a"; timestamp := 1; pinned := true |};
      {| id := "id-e"; text := lit "e"; timestamp := 5; pinned := false |};
      {| id := "id-d"; text := lit "d"; timestamp := 4; pinned := false |};
      {| id := "id-c"; text := lit "c"; timestamp := 3; pinned := false |} ].
Proof.
  apply (@pin_scenario_evicts_oldest "id-a" "id-b" "id-c" "id-d" "id-e"
           1 2 3 4 5 (fun _ => true) (fun _ => true));
    try reflexivity; intros H; discriminate H.
Defined.

Lemma filledStore_steady :
  reachableSteady 3 (run 3 (firstn 5 unpinScenario) initialStore).
Proof.
  unfold unpinScenario, run. cbn [firstn fold_left fst snd].
  repeat (apply reachable_step;
          [|first [ exact I
                  | intros e He; vm_compute in He;
                    repeat (destruct He as [<-|He];
                            [vm_compute; discriminate|]);
                    destruct He ]]).
  apply reachable_initial.
Qed.

Lemma ordering_invariant_witness :
  nth_error (history (run 3 (firstn 5 unpinScenario) initialStore)) 1
  = Some {| id := "id-d"; text := lit "d"; timestamp := 4; pinned := false |}
  /\
  nth_error (history (run 3 (firstn 5 unpinScenario) initialStore)) 2
  = Some {| id := "id-c"; text := lit "c"; timestamp := 3; pinned := false |}
  /\ 1 < 2.
Proof.
  split; [vm_compute; reflexivity|]. split; [vm_compute; reflexivity|].
  refine (proj1 (proj2 (proj1 (ordering_invariant filledStore_steady)
                          1 2
                          {| id := "id-d"; text := lit "d"; timestamp := 4;
                             pinned := false |}
                          {| id := "id-c"; text := lit "c"; timestamp := 3;
                             pinned := false |} _ _)) eq_refl _).
  - vm_compute. reflexivity.
  - vm_compute. reflexivity.
  - vm_compute. reflexivity.
Defined.

Lemma addEntry_existing_text_witness :
  promotedEntry (history exampleStore)
    (history (addEntry 3 (text entryX) 30 "fresh" true true exampleStore))
    entryX 30.
Proof.
  apply (proj1 (addEntry_existing_text 3 entryX 30 "fresh" true true
                  exampleStore)).
  - rewrite exampleStore_history. simpl.
    constructor; [|constructor; [|constructor]].
    + intros [H|[]]. discriminate H.
    + intros [].
  - rewrite exampleStore_history. right. left. reflexivity.
  - reflexivity.
  - right. lia.
Defined.

Lemma addEntry_blank_rejected_witness :
  addEntry 3 (lit "  ") 30 "fresh" true true exampleStore = exampleStore.
Proof.
  apply addEntry_blank_rejected. right.
  intros c [<-|[<-|[]]]; reflexivity.
Defined.

Lemma mutation_independent_of_save_witness :
  history (step 3 (DeleteEntry "id-x") false exampleStore)
  = history (step 3 (DeleteEntry "id-x") true exampleStore)
  /\ ~ In entryX (history (step 3 (DeleteEntry "id-x") false exampleStore)).
Proof.
  destruct (@mutation_independent_of_save 3 (DeleteEntry "id-x") false
              exampleStore eq_refl)
    as [[[] _]|(_ & h & rest & Hc & H1 & H2 & _)].
  simpl negb in H2. split.
  - now rewrite H1, H2.
  - rewrite H1. intros Hin. apply Hc in Hin as [_ Hid]. now apply Hid.
Defined.

Lemma clearHistory_keeps_pinned_witness :
  history (clearHistory true exampleStore)
  = filter (fun item => pinned item) (history exampleStore).
Proof.
  apply (proj1 (proj2 (proj2 (clearHistory_keeps_pinned true exampleStore)))).
  rewrite exampleStore_history. unfold ordered.
  repeat constructor. apply compareEntries_le. left. split; reflexivity.
Defined.

Lemma togglePinEntry_flips_pinned_witness :
  In entryX
    (history (togglePinEntry "id-x" false
                (togglePinEntry "id-x" true exampleStore))).
Proof.
  assert (Hnd : NoDup (map id (history exampleStore))).
  { rewrite exampleStore_history. simpl.
    constructor; [|constructor; [|constructor]].
    - intros [H|[]]. discriminate H.
    - intros []. }
  assert (Hin : In entryX (history exampleStore)).
  { rewrite exampleStore_history. right. left. reflexivity. }
  destruct (proj1 (togglePinEntry_flips_pinned "id-x" true false exampleStore)
              entryX Hnd Hin eq_refl)
    as (_ & _ & _ & H & _).
  exact H.
Defined.

Lemma text_uniqueness_witness : NoDup (map text (history exampleStore)).
Proof.
  exact (proj1 (text_uniqueness exampleStore_reachable)).
Defined.

Lemma deleteEntry_absent_id_witness :
  history (deleteEntry "id-z" true exampleStore) = history exampleStore.
Proof.
  assert (Habs : forall e, In e (history exampleStore) -> id e <> "id-z").
  { rewrite exampleStore_history.
    intros e [<-|[<-|[]]]; intros H; discriminate H. }
  destruct (@deleteEntry_absent_id "id-z" true exampleStore Habs)
    as (_ & _ & H & _).
  apply H. rewrite exampleStore_history. unfold ordered.
  repeat constructor. apply compareEntries_le. left. split; reflexivity.
Defined.

(** * Further properties of the hook *)

Lemma ordered_partition (l : list ClipboardEntry) :
  ordered l ->
  filter (fun item => pinned item) l
    ++ filter (fun item => negb (pinned item)) l = l.
Proof.
  unfold ordered. induction 1 as [|x l Hs IH Hx]; simpl.
  - reflexivity.
  - destruct (pinned x) eqn:Hp; simpl.
    + now rewrite IH.
    + rewrite filter_none.
      * simpl. f_equal. apply filter_all.
        intros e He. rewrite Forall_forall in Hx.
        apply Hx, compareEntries_le in He.
        destruct He as [[H _]|[H _]]; [congruence | now rewrite <- H, Hp].
      * intros e He. rewrite Forall_forall in Hx.
        apply Hx, compareEntries_le in He.
        destruct He as [[H _]|[H _]]; congruence.
Qed.

Lemma history_after_save (b : bool) (l : list ClipboardEntry) :
  ordered l -> (if b then l else sortHistory l) = l.
Proof. destruct b; [reflexivity | apply sortHistory_of_ordered]. Qed.

Section HookFacts.
Variable MAX_HISTORY_ITEMS : nat.

(** X1: [deleteEntry i] leaves exactly the entries whose identifier is not
    [i], each as it was; on a history in canonical order they also keep
    their order. *)
Theorem deleteEntry_removes_id :
  forall (i : string) (saveOk : bool) (s : Store),
    (forall e, In e (history (deleteEntry i saveOk s)) <->
               In e (history s) /\ id e <> i) /\
    (ordered (history s) ->
     history (deleteEntry i saveOk s)
     = filter (fun entry => negb (String.eqb (id entry) i)) (history s)) /\
    List.length (history (deleteEntry i saveOk s)) <= List.length (history s).
Proof.
  intros i ok s. cbn [deleteEntry history showNotification emit].
  rewrite saveHistory_history. repeat split.
  - apply (proj1 (sortHistory_In _ _)) in H. now apply filter_In in H.
  - apply (proj1 (sortHistory_In _ _)) in H. apply filter_In in H as [_ H].
    apply negb_true_iff in H. now apply String.eqb_neq.
  - intros [H1 H2]. apply sortHistory_In, filter_In. split; auto.
    now apply negb_true_iff, String.eqb_neq.
  - intros Ho. now apply sortHistory_of_ordered, filter_ordered.
  - unfold sortHistory. rewrite sort_length. apply filter_length_le.
Qed.

(** X2: [addEntry] never drops a pinned entry: each one is in the new
    history as it was, or with its timestamp refreshed when it carries the
    added text. *)
Theorem addEntry_keeps_pinned :
  forall (t : jsstring) (now : Z) (uuid : string) (saveOk returnedLast : bool)
         (s : Store) (e : ClipboardEntry),
    In e (history s) -> pinned e = true ->
    In e (history (addEntry MAX_HISTORY_ITEMS t now uuid saveOk returnedLast s))
    \/ (text e = t /\ pinned (withTimestamp e now) = true /\
        In (withTimestamp e now)
          (history
             (addEntry MAX_HISTORY_ITEMS t now uuid saveOk returnedLast s))).
Proof.
  intros t now uuid ok rl s e Hin Hp. rewrite addEntry_history.
  destruct (isBlank t); [now left|].
  assert (Hmem : forall x l, In x l ->
                             In x (if rl then l else sortHistory l)).
  { intros x l Hx. destruct rl; [exact Hx | now apply sortHistory_In]. }
  destruct (addEntryFinal_capUnpinned MAX_HISTORY_ITEMS t now uuid (history s))
    as [(l1 & x & l2 & Hsplit & Hx & _ & ->)|[_ ->]].
  - rewrite Hsplit in Hin. apply in_app_or in Hin as [Hin|[<-|Hin]].
    + left. apply Hmem, capUnpinned_pinned; auto.
      right. apply in_or_app. now left.
    + right. repeat split; auto.
      apply Hmem, capUnpinned_pinned; auto. now left.
    + left. apply Hmem, capUnpinned_pinned; auto.
      right. apply in_or_app. now right.
  - left. apply Hmem, capUnpinned_pinned; auto. now right.
Qed.

(** X3: an accepted [addEntry] raises the number of unpinned entries by
    one when the text is new and not at all when it is known, and then
    cuts it to the cap. *)
Theorem addEntry_unpinned_count :
  forall (t : jsstring) (now : Z) (uuid : string) (saveOk returnedLast : bool)
         (s : Store),
    isBlank t = false ->
    unpinnedCount
      (history (addEntry MAX_HISTORY_ITEMS t now uuid saveOk returnedLast s))
    = Nat.min MAX_HISTORY_ITEMS
        (unpinnedCount (history s)
         + (if existsb (fun entry => jsstring_eqb (text entry) t) (history s)
            then 0 else 1)).
Proof.
  intros t now uuid ok rl s Hb. rewrite addEntry_history, Hb.
  assert (Hc : forall l, unpinnedCount (if rl then l else sortHistory l)
                         = unpinnedCount l).
  { intros l. destruct rl; [reflexivity | apply unpinnedCount_sortHistory]. }
  rewrite Hc.
  destruct (addEntryFinal_capUnpinned MAX_HISTORY_ITEMS t now uuid (history s))
    as [(l1 & x & l2 & Hsplit & Hx & _ & ->)|[Habs ->]];
    rewrite unpinnedCount_capUnpinned.
  - replace (existsb _ (history s)) with true.
    + rewrite Hsplit, unpinnedCount_middle. f_equal.
      change (withTimestamp x now :: l1 ++ l2)
        with ([] ++ withTimestamp x now :: l1 ++ l2).
      rewrite unpinnedCount_middle.
      unfold unpinnedCount at 1 2. rewrite filter_app, length_app.
      simpl. fold (unpinnedCount l1) (unpinnedCount l2). lia.
    + symmetry. apply existsb_exists. exists x. split.
      * rewrite Hsplit. apply in_elt.
      * now apply jsstring_eqb_eq.
  - replace (existsb _ (history s)) with false.
    + f_equal.
      change (unpinnedCount (_ :: history s))
        with (S (unpinnedCount (history s))). lia.
    + symmetry. apply not_true_is_false. intros He.
      apply existsb_exists in He as (x & Hx & Heq).
      apply jsstring_eqb_eq in Heq. now apply (Habs x).
Qed.

(** X4: on a history in canonical order, with a clock that did not run
    backwards, adding a new text gives the pinned entries followed by the
    new entry and the unpinned ones, cut after [MAX_HISTORY_ITEMS]: the
    entries evicted are the oldest unpinned ones. *)
Theorem addEntry_new_text :
  forall (t : jsstring) (now : Z) (uuid : string) (saveOk returnedLast : bool)
         (s : Store),
    isBlank t = false ->
    (forall e, In e (history s) -> text e <> t) ->
    ordered (history s) ->
    (forall e, In e (history s) -> (timestamp e <= now)%Z) ->
    history (addEntry MAX_HISTORY_ITEMS t now uuid saveOk returnedLast s)
    = filter (fun item => pinned item) (history s)
        ++ firstn MAX_HISTORY_ITEMS
             ({| id := uuid; text := t; timestamp := now; pinned := false |}
                :: filter (fun item => negb (pinned item)) (history s)).
Proof.
  intros t now uuid ok rl s Hb Habs Ho Hts.
  rewrite addEntry_history, Hb.
  rewrite history_after_save by now apply addEntryFinal_ordered.
  destruct (addEntryFinal_capUnpinned MAX_HISTORY_ITEMS t now uuid (history s))
    as [(l1 & x & l2 & Hsplit & Hx & _)|[_ ->]].
  - exfalso. apply (Habs x); auto. rewrite Hsplit. apply in_elt.
  - reflexivity.
Qed.

(** X5: below the cap, adding a new text under a fresh identifier and
    deleting that identifier again gives back the history (in canonical
    order, with a clock that did not run backwards). *)
Theorem addEntry_then_deleteEntry :
  forall (t : jsstring) (now : Z) (uuid : string)
         (ok1 returnedLast ok2 : bool) (s : Store),
    isBlank t = false ->
    (forall e, In e (history s) -> text e <> t) ->
    ~ In uuid (map id (history s)) ->
    unpinnedCount (history s) < MAX_HISTORY_ITEMS ->
    ordered (history s) ->
    (forall e, In e (history s) -> (timestamp e <= now)%Z) ->
    history
      (deleteEntry uuid ok2
         (addEntry MAX_HISTORY_ITEMS t now uuid ok1 returnedLast s))
    = history s.
Proof.
  intros t now uuid ok1 rl ok2 s Hb Habs Hfresh Hcap Ho Hts.
  cbn [deleteEntry history showNotification emit].
  rewrite saveHistory_history.
  rewrite (@addEntry_new_text t now uuid ok1 rl s Hb Habs Ho Hts).
  rewrite firstn_all2 by (simpl; unfold unpinnedCount in Hcap; lia).
  assert (Hkeep : forall q,
             filter (fun entry => negb (String.eqb (id entry) uuid))
               (filter q (history s)) = filter q (history s)).
  { intros q. apply filter_all. intros e He. apply filter_In in He as [He _].
    apply negb_true_iff, String.eqb_neq. intros Heq. apply Hfresh.
    rewrite <- Heq. now apply in_map. }
  rewrite filter_app. simpl. rewrite String.eqb_refl. simpl.
  rewrite !Hkeep, ordered_partition by assumption.
  now apply sortHistory_of_ordered.
Qed.

(** *** Invariants of runs: identifiers, texts, the snapshot *)

Lemma NoDup_map_filter_id (q : ClipboardEntry -> bool)
    (l : list ClipboardEntry) :
  NoDup (map id l) -> NoDup (map id (filter q l)).
Proof.
  induction l as [|x l IH]; simpl; intros H.
  - constructor.
  - inversion H as [|? ? Hx Hl]; subst.
    destruct (q x); simpl; auto. constructor; auto.
    intros Hin. apply Hx. apply in_map_iff in Hin as (y & Hy & Hin).
    apply filter_In in Hin as [Hin _]. rewrite <- Hy. now apply in_map.
Qed.

Lemma capUnpinned_NoDup_id (cap : nat) (l : list ClipboardEntry) :
  NoDup (map id l) -> NoDup (map id (capUnpinned cap l)).
Proof.
  intros H. destruct (capUnpinned_prefix cap l) as [d Hd].
  apply (Permutation_map id) in Hd. symmetry in Hd.
  apply (Permutation_NoDup Hd) in H. rewrite map_app in H.
  now apply NoDup_app_remove_r in H.
Qed.

Lemma sortHistory_NoDup_id (l : list ClipboardEntry) :
  NoDup (map id l) -> NoDup (map id (sortHistory l)).
Proof.
  intros H. eapply Permutation_NoDup; [|exact H].
  symmetry. apply Permutation_map, sortHistory_perm.
Qed.

Lemma addEntryFinal_NoDup_id (t : jsstring) (now : Z) (uuid : string)
    (l : list ClipboardEntry) :
  ~ In uuid (map id l) -> NoDup (map id l) ->
  NoDup (map id (addEntryFinal MAX_HISTORY_ITEMS t now uuid l)).
Proof.
  intros Hfresh H.
  destruct (addEntryFinal_capUnpinned MAX_HISTORY_ITEMS t now uuid l)
    as [(l1 & e & l2 & Hsplit & _ & _ & ->)|[_ ->]];
    apply capUnpinned_NoDup_id.
  - subst l. rewrite map_app in H. simpl in H.
    apply (Permutation_NoDup (l' := id e :: map id l1 ++ map id l2)) in H.
    + simpl. now rewrite map_app.
    + symmetry. apply Permutation_middle.
  - simpl. now constructor.
Qed.

Lemma step_unique_ids (o : Op) (ok : bool) (s : Store) :
  freshUuid o s ->
  holdsOf (fun l => NoDup (map id l)) s ->
  holdsOf (fun l => NoDup (map id l)) (step MAX_HISTORY_ITEMS o ok s).
Proof.
  intros Hf H. pose proof sortHistory_NoDup_id as Hsort.
  destruct o as [t now uuid rl|i| |i|]; simpl step.
  - unfold addEntry. destruct (isBlank t); auto.
    assert (Hfin : NoDup (map id (addEntryFinal MAX_HISTORY_ITEMS t now uuid
                                    (history s)))).
    { apply addEntryFinal_NoDup_id; [exact Hf | apply (proj1 H)]. }
    pose proof (saveHistory_holdsOf Hsort _ ok Hfin H) as [Hh Hs].
    destruct rl; split; auto.
  - unfold deleteEntry. apply showNotification_holdsOf.
    apply (saveHistory_holdsOf Hsort); auto.
    apply NoDup_map_filter_id, (proj1 H).
  - unfold clearHistory.
    destruct (existsb _ _); [apply showNotification_holdsOf|];
      apply (saveHistory_holdsOf Hsort); auto;
      apply NoDup_map_filter_id, (proj1 H).
  - destruct (togglePinEntry_cases i ok s)
      as [->|(l1 & e & l2 & Hsplit & _ & ->)]; auto.
    apply showNotification_holdsOf, (saveHistory_holdsOf Hsort); auto.
    pose proof (proj1 H) as Hh. cbn beta in Hh.
    rewrite Hsplit, map_app in Hh. now rewrite map_app.
  - apply loadHistory_holdsOf; auto. constructor.
Qed.

(** X6: as long as every [crypto.randomUUID()] returns an identifier that
    no entry of the history carries, the identifiers of the history are
    pairwise distinct in every state of a run, and so are those of the
    stored snapshot. *)
Theorem unique_ids_invariant :
  forall s : Store,
    reachableVia MAX_HISTORY_ITEMS freshUuid s ->
    NoDup (map id (history s)) /\
    (forall l, localStorage s = Some (SnapshotJSON l) -> NoDup (map id l)).
Proof.
  induction 1 as [|o ok s Hr IH Hf].
  - split; [constructor | discriminate].
  - now apply step_unique_ids.
Qed.

(** X7: no run puts an empty or white-space-only text into the history:
    every text there has a code unit that [trim] keeps. *)
Theorem texts_never_blank :
  forall (s : Store) (e : ClipboardEntry),
    reachable MAX_HISTORY_ITEMS s -> In e (history s) ->
    exists c, In c (text e) /\ isWhiteSpace c = false.
Proof.
  intros s e Hr Hin.
  pose proof (proj1 (reachable_nonblank Hr) e Hin) as Hb.
  destruct (forallb isWhiteSpace (text e)) eqn:Hall.
  - apply isBlank_whitespace in Hall. congruence.
  - assert (Hex : existsb (fun c => negb (isWhiteSpace c)) (text e) = true).
    { clear -Hall. induction (text e) as [|c l IH]; simpl in *.
      - discriminate.
      - destruct (isWhiteSpace c); simpl in *; auto. }
    apply existsb_exists in Hex as (c & Hc & Hw).
    exists c. split; auto. now apply negb_true_iff.
Qed.



(** X9: what a reload sees.  After a mutating operation whose save
    succeeded, [loadHistory] returns the in-memory history in canonical
    order (or the operation returned early and wrote nothing); after one
    whose save failed, [loadHistory] returns what it would have returned
    before the operation: the change is lost. *)
Theorem reload_after_save :
  forall (o : Op) (s : Store),
    mutating o = true ->
    (step MAX_HISTORY_ITEMS o true s = s \/
     history (loadHistory (step MAX_HISTORY_ITEMS o true s))
     = sortHistory (history (step MAX_HISTORY_ITEMS o true s))) /\
    history (loadHistory (step MAX_HISTORY_ITEMS o false s))
    = history (loadHistory s).
Proof.
  assert (Hload : forall l s',
             localStorage s' = Some (SnapshotJSON l) ->
             history (loadHistory s') = sortHistory l).
  { intros l s' H. unfold loadHistory. cbn [localStorage setError setIsLoading].
    now rewrite H. }
  assert (Hsame : forall s1 s2,
             localStorage s1 = localStorage s2 ->
             history (loadHistory s1) = history (loadHistory s2)).
  { intros s1 s2 H. unfold loadHistory.
    cbn [localStorage setError setIsLoading]. rewrite H.
    destruct (localStorage s2) as [[l| |]|]; reflexivity. }
  assert (Hidem : forall l, sortHistory (sortHistory l) = sortHistory l).
  { intros l. apply sortHistory_of_ordered, sortHistory_ordered. }
  intros o s Hm. destruct o as [t now uuid rl|i| |i|];
    simpl step; try discriminate Hm.
  - unfold addEntry. destruct (isBlank t); [split; auto|].
    split; [right|apply Hsame; destruct rl; reflexivity].
    destruct rl.
    + rewrite (Hload (sortHistory
                        (addEntryFinal MAX_HISTORY_ITEMS t now uuid (history s))));
        [|reflexivity].
      apply Hidem.
    + rewrite (Hload (sortHistory
                        (addEntryFinal MAX_HISTORY_ITEMS t now uuid (history s))));
        [|reflexivity].
      reflexivity.
  - split; [right|now apply Hsame].
    erewrite Hload by reflexivity. reflexivity.
  - unfold clearHistory. destruct (existsb _ _);
      (split; [right|now apply Hsame]);
      erewrite Hload by reflexivity; reflexivity.
  - destruct (togglePinEntry_cases i true s)
      as [Ht|(l1 & e & l2 & Hsplit & _ & Ht)].
    + split; [now left|].
      destruct (togglePinEntry_cases i false s)
        as [->|(l1 & e & l2 & _ & _ & ->)]; [reflexivity | now apply Hsame].
    + split.
      * right. rewrite Ht. erewrite Hload by reflexivity. reflexivity.
      * destruct (togglePinEntry_cases i false s)
          as [->|(l1' & e' & l2' & _ & _ & ->)];
          [reflexivity | now apply Hsame].
Qed.

(** *** Errors, reloads and repeated calls *)




(** X11: no mutating operation clears the error value: a successful save
    leaves it as it was and a failed one sets it, so an error stays
    displayed until [loadHistory] resets it. *)
Theorem error_is_sticky :
  forall (o : Op) (saveOk : bool) (s : Store),
    mutating o = true ->
    error (step MAX_HISTORY_ITEMS o true s) = error s /\
    (error s <> None -> error (step MAX_HISTORY_ITEMS o saveOk s) <> None).
Proof.
  intros o ok s Hm.
  assert (Hs : forall l m ok',
             error (showNotification m (saveHistory l ok' s))
             = if ok' then error s else Some saveError).
  { intros l m []; reflexivity. }
  assert (Hkeep : forall (ok' : bool),
             error s <> None ->
             (if ok' then error s else Some saveError) <> None).
  { intros [] H; [exact H | discriminate]. }
  destruct o as [t now uuid rl|i| |i|]; simpl step; try discriminate Hm.
  - unfold addEntry. destruct (isBlank t); [split; auto|].
    split.
    + destruct rl; reflexivity.
    + intros H. destruct rl; cbn [error setHistory];
        rewrite saveHistory_error; now apply Hkeep.
  - unfold deleteEntry. rewrite !Hs. split; auto.
  - unfold clearHistory. destruct (existsb _ _);
      rewrite ?Hs, ?saveHistory_error; split; auto.
  - split.
    + destruct (togglePinEntry_cases i true s)
        as [->|(l1 & e & l2 & _ & _ & ->)]; auto.
    + destruct (togglePinEntry_cases i ok s)
        as [->|(l1 & e & l2 & _ & _ & ->)]; auto.
      rewrite Hs. apply Hkeep.
Qed.

(** X12: [clearHistory] twice is [clearHistory] once: the second call
    leaves the history as the first left it and sends no notification. *)
Theorem clearHistory_idempotent :
  forall (ok1 ok2 : bool) (s : Store),
    history (clearHistory ok2 (clearHistory ok1 s))
    = history (clearHistory ok1 s) /\
    notifications (effects (clearHistory ok2 (clearHistory ok1 s)))
    = notifications (effects (clearHistory ok1 s)).
Proof.
  intros ok1 ok2 s.
  assert (Hh : forall ok s',
             history (clearHistory ok s')
             = sortHistory (filter (fun item => pinned item) (history s'))).
  { intros ok s'. unfold clearHistory. destruct (existsb _ _); reflexivity. }
  assert (Hpin : forall e, In e (history (clearHistory ok1 s)) ->
                           pinned e = true).
  { intros e He. rewrite Hh in He.
    apply (proj1 (sortHistory_In _ _)) in He. now apply filter_In in He. }
  split.
  - rewrite (Hh ok2), filter_all by exact Hpin.
    rewrite Hh. apply sortHistory_of_ordered, sortHistory_ordered.
  - unfold clearHistory at 1.
    replace (existsb _ (history (clearHistory ok1 s))) with false.
    + apply saveHistory_notifications.
    + symmetry. apply not_true_is_false. intros He.
      apply existsb_exists in He as (e & He & Hp).
      rewrite (Hpin e He) in Hp. discriminate.
Qed.

(** X13: [deleteEntry], [clearHistory] and [togglePinEntry] create no
    entry and rewrite no identifier, text or timestamp: whatever is in the
    history afterwards was there before, up to the pin flag that
    [togglePinEntry] turns. *)
Theorem only_addEntry_creates_or_restamps :
  forall (i : string) (saveOk : bool) (s : Store) (e' : ClipboardEntry),
    (In e' (history (deleteEntry i saveOk s)) -> In e' (history s)) /\
    (In e' (history (clearHistory saveOk s)) -> In e' (history s)) /\
    (In e' (history (togglePinEntry i saveOk s)) ->
     exists e, In e (history s) /\ id e' = id e /\ text e' = text e /\
               timestamp e' = timestamp e) /\
    List.length (history (togglePinEntry i saveOk s))
    = List.length (history s).
Proof.
  intros i ok s e'. repeat split.
  - intros H. cbn [deleteEntry history showNotification emit] in H.
    rewrite saveHistory_history in H.
    apply (proj1 (sortHistory_In _ _)) in H. now apply filter_In in H.
  - intros H.
    assert (Hh : history (clearHistory ok s)
                 = sortHistory (filter (fun item => pinned item) (history s))).
    { unfold clearHistory. destruct (existsb _ _); reflexivity. }
    rewrite Hh in H.
    apply (proj1 (sortHistory_In _ _)) in H. now apply filter_In in H.
  - intros H. destruct (togglePinEntry_cases i ok s)
      as [Ht|(l1 & e & l2 & Hsplit & _ & Ht)]; rewrite Ht in H.
    + exists e'. auto.
    + cbn [history showNotification emit] in H.
      rewrite saveHistory_history in H.
      apply (proj1 (sortHistory_In _ _)) in H. rewrite Hsplit.
      apply in_app_or in H as [H|[<-|H]].
      * exists e'. repeat split; auto. apply in_or_app. now left.
      * exists e. repeat split; auto. apply in_elt.
      * exists e'. repeat split; auto. apply in_or_app. right. now right.
  - destruct (togglePinEntry_cases i ok s)
      as [->|(l1 & e & l2 & Hsplit & _ & ->)]; auto.
    cbn [history showNotification emit]. rewrite saveHistory_history.
    unfold sortHistory. rewrite sort_length, Hsplit, !length_app.
    reflexivity.
Qed.

(** X14: [addEntry] returns the store untouched exactly for the texts made
    of white space only; any other text makes it attempt a save, even when
    the text is already the newest entry. *)
Theorem addEntry_noop_iff_blank :
  forall (t : jsstring) (now : Z) (uuid : string) (saveOk returnedLast : bool)
         (s : Store),
    addEntry MAX_HISTORY_ITEMS t now uuid saveOk returnedLast s = s <->
    forallb isWhiteSpace t = true.
Proof.
  intros t now uuid ok rl s. rewrite <- isBlank_whitespace.
  unfold addEntry. destruct (isBlank t); split; auto; try discriminate.
  intros H. exfalso.
  assert (He : List.length (effects s) < List.length (effects s)).
  { rewrite <- H at 2. destruct rl; cbn [effects setHistory];
      rewrite saveHistory_effects, length_app; simpl; lia. }
  lia.
Qed.

End HookFacts.

(** * Properties of [App] and [ClipboardItemCard] *)

Lemma startsWith_refl (s : jsstring) : startsWith s s = true.
Proof.
  induction s as [|c s IH]; simpl; auto. now rewrite N.eqb_refl.
Qed.

Lemma includes_refl (s : jsstring) : includes s s = true.
Proof. destruct s; simpl; auto. now rewrite N.eqb_refl, startsWith_refl. Qed.

(** X15: [handleCopyToClipboard] shows the "Copied" banner according to
    the error value from before the copy, not to how the copy went: with
    no earlier error the banner is shown even when [writeText] failed (and
    the error is then set), and with an earlier error in place a copy that
    succeeded is not confirmed.  Neither the history nor the storage cell
    is touched, and the clipboard holds the text exactly when the write
    succeeded. *)
Theorem handleCopyToClipboard_banner :
  forall (t : jsstring) (writeOk : bool) (p : Page),
    showCopiedNotification (handleCopyToClipboard t writeOk p)
    = (noError (error (manager p)) || showCopiedNotification p)%bool /\
    clipboardText (handleCopyToClipboard t writeOk p)
    = (if writeOk then t else clipboardText p) /\
    error (manager (handleCopyToClipboard t writeOk p))
    = (if writeOk then error (manager p) else Some copyError) /\
    history (manager (handleCopyToClipboard t writeOk p))
    = history (manager p) /\
    localStorage (manager (handleCopyToClipboard t writeOk p))
    = localStorage (manager p).
Proof.
  intros t w p. unfold handleCopyToClipboard, copyToSystemClipboard.
  destruct (noError (error (manager p))), w; cbn; auto.
Qed.

Section ComponentFacts.
Variable MAX_HISTORY_ITEMS : nat.

(** X16: once a save has failed, the copy banner stays as it is: the save
    error is never cleared by the operations that follow, so a later copy
    is not confirmed even when it succeeds. *)
Theorem no_copy_banner_after_failed_save :
  forall (o : Op) (s : Store) (t : jsstring) (writeOk : bool) (p : Page),
    mutating o = true ->
    step MAX_HISTORY_ITEMS o false s <> s ->
    manager p = step MAX_HISTORY_ITEMS o false s ->
    showCopiedNotification (handleCopyToClipboard t writeOk p)
    = showCopiedNotification p /\
    clipboardText (handleCopyToClipboard t writeOk p)
    = (if writeOk then t else clipboardText p).
Proof.
  intros o s t w p Hm Hne Hp.
  assert (He : error (manager p) = Some saveError).
  { rewrite Hp. destruct o as [x now uuid rl|i| |i|]; simpl step in *;
      try discriminate Hm.
    - unfold addEntry in *. destruct (isBlank x); [congruence|].
      destruct rl; reflexivity.
    - reflexivity.
    - unfold clearHistory. destruct (existsb _ _); reflexivity.
    - destruct (togglePinEntry_cases i false s)
        as [Ht|(l1 & e & l2 & _ & _ & Ht)]; [congruence|].
      rewrite Ht. reflexivity. }
  unfold handleCopyToClipboard, copyToSystemClipboard. rewrite He.
  destruct w; cbn; auto.
Qed.

Lemma addEntry_text_present (t : jsstring) (now : Z) (uuid : string)
    (ok rl : bool) (s : Store) :
  NoDup (map text (history s)) -> isBlank t = false ->
  1 <= MAX_HISTORY_ITEMS ->
  NoDup (map text
           (history (addEntry MAX_HISTORY_ITEMS t now uuid ok rl s))) /\
  exists e,
    In e (history (addEntry MAX_HISTORY_ITEMS t now uuid ok rl s)) /\
    text e = t /\ timestamp e = now.
Proof.
  intros Hnd Hb Hcap. rewrite addEntry_history, Hb.
  set (final := addEntryFinal MAX_HISTORY_ITEMS t now uuid (history s)).
  assert (Hperm : Permutation (if rl then final else sortHistory final) final).
  { destruct rl; [reflexivity | apply sortHistory_perm]. }
  split.
  - eapply Permutation_NoDup.
    + symmetry. apply Permutation_map, Hperm.
    + now apply addEntryFinal_NoDup_text.
  - destruct (addEntryFinal_capUnpinned MAX_HISTORY_ITEMS t now uuid (history s))
      as [(l1 & x & l2 & _ & Hx & _ & Hfin)|[_ Hfin]]; fold final in Hfin.
    + exists (withTimestamp x now). repeat split; auto.
      apply (Permutation_in _ (Permutation_sym Hperm)).
      rewrite Hfin. apply capUnpinned_head. now right.
    + exists {| id := uuid; text := t; timestamp := now; pinned := false |}.
      repeat split.
      apply (Permutation_in _ (Permutation_sym Hperm)).
      rewrite Hfin. apply capUnpinned_head. now right.
Qed.

(** X17: the effect that reads the clipboard when loading ends.  Without
    access it only sets the matching error and leaves the history alone.
    With access and a text that is not blank, the history afterwards holds
    exactly one entry with the clipboard text (texts being distinct before
    and the cap positive); a blank text changes nothing, and so does the
    text of the newest unpinned entry: that entry is not even restamped. *)
Theorem readClipboardAndAdd_outcomes :
  forall (access : ClipboardAccess) (now : Z) (uuid : string)
         (saveOk returnedLast : bool) (p : Page),
    (access <> Granted ->
     history (manager (readClipboardAndAdd MAX_HISTORY_ITEMS access now uuid
                         saveOk returnedLast p))
     = history (manager p) /\
     error (manager (readClipboardAndAdd MAX_HISTORY_ITEMS access now uuid
                       saveOk returnedLast p))
     = Some (match access with
             | ApiMissing => apiError
             | NotAllowed => permissionError
             | _ => readError
             end)) /\
    (isBlank (clipboardText p) = true ->
     readClipboardAndAdd MAX_HISTORY_ITEMS Granted now uuid
       saveOk returnedLast p = p) /\
    (forall item rest,
        filter (fun item => negb (pinned item)) (history (manager p))
        = item :: rest ->
        text item = clipboardText p ->
        readClipboardAndAdd MAX_HISTORY_ITEMS Granted now uuid
          saveOk returnedLast p = p) /\
    (NoDup (map text (history (manager p))) ->
     isBlank (clipboardText p) = false ->
     1 <= MAX_HISTORY_ITEMS ->
     NoDup (map text
              (history (manager (readClipboardAndAdd MAX_HISTORY_ITEMS Granted
                                   now uuid saveOk returnedLast p)))) /\
     exists e,
       filter (fun x => jsstring_eqb (text x) (clipboardText p))
         (history (manager (readClipboardAndAdd MAX_HISTORY_ITEMS Granted
                              now uuid saveOk returnedLast p)))
       = [e]).
Proof.
  intros access now uuid ok rl p.
  assert (Hfind : forall l item rest,
             filter (fun item => negb (pinned item)) l = item :: rest ->
             find (fun item => negb (pinned item)) l = Some item).
  { induction l as [|x l IH]; simpl; intros item rest H; [discriminate|].
    destruct (negb (pinned x)); [now injection H as -> _ | eauto]. }
  split; [|split; [|split]].
  - intros Hacc. destruct access; cbn; auto. congruence.
  - intros Hb. unfold readClipboardAndAdd. now rewrite Hb.
  - intros item rest Hf Ht. unfold readClipboardAndAdd.
    destruct (isBlank (clipboardText p)); auto. cbn [negb].
    rewrite (Hfind _ _ _ Hf), Ht.
    replace (jsstring_eqb (clipboardText p) (clipboardText p)) with true;
      [reflexivity|].
    symmetry. now apply jsstring_eqb_eq.
  - intros Hnd Hb Hcap.
    assert (Hone : forall l e,
               NoDup (map text l) -> In e l -> text e = clipboardText p ->
               exists e0,
                 filter (fun x => jsstring_eqb (text x) (clipboardText p)) l
                 = [e0]).
    { intros l e Hl He Ht. exists e. rewrite <- Ht.
      now apply filter_text_unique. }
    destruct (@addEntry_text_present (clipboardText p) now uuid ok rl
                (manager p) Hnd Hb Hcap) as (Hnd' & e & He & Ht & _).
    unfold readClipboardAndAdd. rewrite Hb. cbn [negb].
    destruct (find _ (history (manager p))) as [item|] eqn:Hitem.
    + destruct (jsstring_eqb (text item) (clipboardText p)) eqn:Heq; cbn [negb].
      * split; auto. apply find_some in Hitem as [Hin _].
        apply jsstring_eqb_eq in Heq. eauto.
      * cbn [manager withManager]. eauto.
    + cbn [manager withManager]. eauto.
Qed.

End ComponentFacts.

(** X18: [handleClearAll] does nothing when no entry is unpinned or the
    user declines; when it does something it is [clearHistory] on a
    history with an unpinned entry, so the cleared notification is always
    sent and what remains is the pinned entries. *)
Theorem handleClearAll_outcomes :
  forall (confirmed saveOk : bool) (p : Page),
    (handleClearAll confirmed saveOk p = p /\
     (confirmed = false \/
      forall e, In e (history (manager p)) -> pinned e = true))
    \/
    (confirmed = true /\
     (exists e, In e (history (manager p)) /\ pinned e = false) /\
     notifications (effects (manager (handleClearAll confirmed saveOk p)))
     = notifications (effects (manager p)) ++ [clearedMessage] /\
     forall e,
       In e (history (manager (handleClearAll confirmed saveOk p))) <->
       In e (history (manager p)) /\ pinned e = true).
Proof.
  intros c ok p. unfold handleClearAll.
  destruct (filter (fun item => negb (pinned item)) (history (manager p)))
    as [|x rest] eqn:Hf; cbn [List.length Nat.eqb].
  - left. split; auto. right. intros e He.
    destruct (pinned e) eqn:Hp; auto.
    assert (Hin : In e (filter (fun item => negb (pinned item))
                          (history (manager p)))).
    { apply filter_In. split; auto. now rewrite Hp. }
    rewrite Hf in Hin. destruct Hin.
  - destruct c; [right | left; auto].
    assert (Hx : In x (history (manager p)) /\ pinned x = false).
    { assert (Hin : In x (filter (fun item => negb (pinned item))
                            (history (manager p)))) by (rewrite Hf; now left).
      apply filter_In in Hin as [H1 H2]. split; auto.
      now apply negb_true_iff. }
    assert (Hex : existsb (fun item => negb (pinned item))
                    (history (manager p)) = true).
    { apply existsb_exists. exists x. destruct Hx as [H1 H2].
      split; auto. now rewrite H2. }
    split; auto. split; [now exists x|].
    cbn [manager withManager]. unfold clearHistory. rewrite Hex. split.
    + now rewrite showNotification_notifications, saveHistory_notifications.
    + intros e. cbn [history showNotification emit].
      rewrite saveHistory_history. split.
      * intros H. apply (proj1 (sortHistory_In _ _)) in H.
        now apply filter_In in H.
      * intros H. now apply sortHistory_In, filter_In.
Qed.

Section SearchFacts.
Variable toLowerCase : jsstring -> jsstring.

(** X19: [filteredHistory] shows nothing that is not in the history and
    keeps the order of what it shows; with an empty search term it shows
    everything; an entry whose text is the search term itself is always
    shown. *)
Theorem filteredHistory_sound :
  forall p : Page,
    (forall e, In e (filteredHistory toLowerCase p) ->
               In e (history (manager p))) /\
    (ordered (history (manager p)) ->
     ordered (filteredHistory toLowerCase p)) /\
    (searchTerm p = [] ->
     filteredHistory toLowerCase p = history (manager p)) /\
    (forall e, In e (history (manager p)) -> text e = searchTerm p ->
               In e (filteredHistory toLowerCase p)) /\
    List.length (filteredHistory toLowerCase p)
    <= List.length (history (manager p)).
Proof.
  intros p. unfold filteredHistory.
  destruct (searchTerm p) as [|c term] eqn:Hterm.
  - repeat split; auto.
  - repeat split.
    + intros e He. now apply filter_In in He.
    + apply filter_ordered.
    + discriminate.
    + intros e He Ht. apply filter_In. split; auto.
      rewrite Ht. apply includes_refl.
    + apply filter_length_le.
Qed.

End SearchFacts.

(** X20: the text a card displays is the entry's text when that has at
    most 150 code units, and otherwise its first 150 code units followed
    by three dots: never more than 153 code units, always starting like
    the text. *)
Theorem displayText_bounded :
  forall item : ClipboardEntry,
    List.length (displayText item) <= 153 /\
    List.length (displayText item) <= List.length (text item) + 3 /\
    (List.length (text item) <= 150 -> displayText item = text item) /\
    (150 < List.length (text item) ->
     displayText item = firstn 150 (text item) ++ [46; 46; 46]%N) /\
    firstn 150 (displayText item) = firstn 150 (text item).
Proof.
  intros item. unfold displayText, slice.
  destruct (Nat.ltb_spec 150 (List.length (text item))) as [Hlt|Hle].
  - cbn [skipn]. rewrite Nat.sub_0_r.
    assert (Hl : List.length (firstn 150 (text item)) = 150)
      by (apply firstn_length_le; lia).
    repeat split.
    + rewrite length_app, Hl. simpl. lia.
    + rewrite length_app, Hl. simpl. lia.
    + lia.
    + rewrite firstn_app, Hl, Nat.sub_diag, firstn_firstn.
      simpl. now rewrite app_nil_r.
  - repeat split; auto; lia.
Qed.

(** X21: a click on a card's delete button never removes a pinned entry
    (identifiers being distinct): a pinned card has no button, and the
    button of an unpinned card, once confirmed, removes that entry and no
    other. *)
Theorem deleteClick_spares_pinned :
  forall (item : ClipboardEntry) (confirmed saveOk : bool) (s : Store),
    NoDup (map id (history s)) -> In item (history s) ->
    (forall e, In e (history s) -> pinned e = true ->
               In e (history (deleteClick item confirmed saveOk s))) /\
    (pinned item = true -> deleteClick item confirmed saveOk s = s) /\
    (pinned item = false -> confirmed = true ->
     forall e, In e (history (deleteClick item confirmed saveOk s)) <->
               In e (history s) /\ e <> item).
Proof.
  intros item c ok s Hnd Hitem.
  assert (Hdel : forall e,
             In e (history (deleteEntry (id item) ok s)) <->
             In e (history s) /\ e <> item).
  { intros e. cbn [deleteEntry history showNotification emit].
    rewrite saveHistory_history, sortHistory_In, filter_In.
    rewrite negb_true_iff, String.eqb_neq. split; intros [H1 H2]; split; auto.
    - intros ->. now apply H2.
    - intros Hid. apply H2.
      now apply (NoDup_map_eq id (history s)). }
  unfold deleteClick, deleteButtonShown, handleDelete.
  destruct (pinned item) eqn:Hp; cbn [negb].
  - split; [|split]; auto. discriminate.
  - destruct c.
    + split; [|split].
      * intros e He Hpe. apply Hdel. split; auto. congruence.
      * discriminate.
      * intros _ _. exact Hdel.
    + split; [|split]; auto;
        first [discriminate | intros _ H; discriminate H].
Qed.

Section PromotionFacts.
Variable MAX_HISTORY_ITEMS : nat.

(** X22: on a history in canonical order with distinct texts, and a clock
    that did not run backwards, re-adding the text of an entry [E] moves
    [E], restamped, to the top of its partition and keeps the others in
    their order: the result is the pinned entries, then the unpinned ones
    cut at the cap, of [E] restamped followed by the history without
    [E]. *)
Theorem addEntry_promotes_to_top :
  forall (E : ClipboardEntry) (now : Z) (uuid : string)
         (saveOk returnedLast : bool) (s : Store),
    isBlank (text E) = false ->
    In E (history s) ->
    NoDup (map text (history s)) ->
    ordered (history s) ->
    (forall e, In e (history s) -> (timestamp e <= now)%Z) ->
    history
      (addEntry MAX_HISTORY_ITEMS (text E) now uuid saveOk returnedLast s)
    = capUnpinned MAX_HISTORY_ITEMS
        (withTimestamp E now
           :: filter (fun x => negb (jsstring_eqb (text x) (text E)))
                (history s)).
Proof.
  intros E now uuid ok rl s Hb Hin Hnd Ho Hts.
  rewrite addEntry_history, Hb.
  rewrite history_after_save by now apply addEntryFinal_ordered.
  destruct (addEntryFinal_capUnpinned MAX_HISTORY_ITEMS (text E) now uuid
              (history s))
    as [(l1 & x & l2 & Hsplit & Hx & _ & ->)|[Habs _]].
  2:{ exfalso. now apply (Habs E). }
  assert (x = E) as ->.
  { apply (NoDup_map_eq text (history s)); auto.
    rewrite Hsplit. apply in_elt. }
  f_equal. f_equal. rewrite Hsplit in Hnd |- *.
  rewrite map_app in Hnd. simpl in Hnd.
  pose proof (NoDup_remove_2 _ _ _ Hnd) as Hnot.
  rewrite filter_app. simpl.
  replace (jsstring_eqb (text E) (text E)) with true
    by (symmetry; now apply jsstring_eqb_eq).
  simpl.
  rewrite !filter_all; auto.
  - intros e He. apply negb_true_iff, not_true_is_false. intros Heq.
    apply jsstring_eqb_eq in Heq. apply Hnot, in_or_app. right.
    rewrite <- Heq. now apply in_map.
  - intros e He. apply negb_true_iff, not_true_is_false. intros Heq.
    apply jsstring_eqb_eq in Heq. apply Hnot, in_or_app. left.
    rewrite <- Heq. now apply in_map.
Qed.

End PromotionFacts.

(** X23: for an identifier carried by an entry (identifiers being
    distinct), [togglePinEntry] sends one notification, and it names the
    state the entry is left in: "Item pinned." for an entry that was
    unpinned, "Item unpinned." for one that was pinned. *)
Theorem togglePinEntry_notifies_new_state :
  forall (i : string) (saveOk : bool) (s : Store) (e : ClipboardEntry),
    NoDup (map id (history s)) -> In e (history s) -> id e = i ->
    notifications (effects (togglePinEntry i saveOk s))
    = notifications (effects s)
        ++ [if pinned e then "Item unpinned." else "Item pinned."] /\
    In (withPinned e (negb (pinned e))) (history (togglePinEntry i saveOk s)).
Proof.
  intros i ok s e Hnd Hin Hid.
  destruct (@togglePinEntry_found i ok s e Hnd Hin Hid)
    as (l1 & l2 & Hsplit & ->).
  split.
  - rewrite showNotification_notifications, saveHistory_notifications.
    now destruct (pinned e).
  - cbn [history showNotification emit]. rewrite saveHistory_history.
    apply sortHistory_In, in_elt.
Qed.

(** ** The further properties at concrete inputs *)

Lemma exampleStore_ordered : ordered (history exampleStore).
Proof. rewrite exampleStore_history. solve_ordered. Qed.

Lemma exampleStore_ids : NoDup (map id (history exampleStore)).
Proof.
  rewrite exampleStore_history. simpl.
  constructor; [|constructor; [|constructor]].
  - intros [H|[]]. discriminate H.
  - intros [].
Qed.

Lemma exampleStore_texts : NoDup (map text (history exampleStore)).
Proof.
  rewrite exampleStore_history. simpl.
  constructor; [|constructor; [|constructor]].
  - intros [H|[]]. discriminate H.
  - intros [].
Qed.

Lemma deleteEntry_removes_id_witness :
  history (deleteEntry "id-x" true exampleStore)
  = filter (fun entry => negb (String.eqb (id entry) "id-x"))
      (history exampleStore).
Proof.
  exact (proj1 (proj2 (deleteEntry_removes_id "id-x" true exampleStore))
           exampleStore_ordered).
Defined.

Lemma addEntry_keeps_pinned_witness :
  In entryY (history (addEntry 3 (lit "z") 30 "id-z" true true exampleStore))
  \/ (text entryY = lit "z" /\ pinned (withTimestamp entryY 30) = true /\
      In (withTimestamp entryY 30)
        (history (addEntry 3 (lit "z") 30 "id-z" true true exampleStore))).
Proof.
  apply (@addEntry_keeps_pinned 3 (lit "z") 30 "id-z" true true exampleStore
           entryY).
  - rewrite exampleStore_history. left. reflexivity.
  - reflexivity.
Defined.

Lemma addEntry_unpinned_count_witness :
  unpinnedCount (history (addEntry 3 (lit "z") 30 "id-z" true true exampleStore))
  = Nat.min 3
      (unpinnedCount (history exampleStore)
       + (if existsb (fun entry => jsstring_eqb (text entry) (lit "z"))
               (history exampleStore)
          then 0 else 1)).
Proof.
  apply (@addEntry_unpinned_count 3 (lit "z") 30 "id-z" true true exampleStore).
  reflexivity.
Defined.

Lemma exampleStore_lacks_z :
  forall e, In e (history exampleStore) -> text e <> lit "z".
Proof.
  rewrite exampleStore_history.
  intros e [<-|[<-|[]]]; intros H; discriminate H.
Qed.

Lemma exampleStore_before_30 :
  forall e, In e (history exampleStore) -> (timestamp e <= 30)%Z.
Proof.
  rewrite exampleStore_history. intros e [<-|[<-|[]]]; simpl; lia.
Qed.

Lemma addEntry_new_text_witness :
  history (addEntry 3 (lit "z") 30 "id-z" true true exampleStore)
  = filter (fun item => pinned item) (history exampleStore)
      ++ firstn 3
           ({| id := "id-z"; text := lit "z"; timestamp := 30;
               pinned := false |}
              :: filter (fun item => negb (pinned item))
                   (history exampleStore)).
Proof.
  apply (@addEntry_new_text 3 (lit "z") 30 "id-z" true true exampleStore).
  - reflexivity.
  - exact exampleStore_lacks_z.
  - exact exampleStore_ordered.
  - exact exampleStore_before_30.
Defined.

Lemma addEntry_then_deleteEntry_witness :
  history
    (deleteEntry "id-z" true
       (addEntry 3 (lit "z") 30 "id-z" true true exampleStore))
  = history exampleStore.
Proof.
  apply (@addEntry_then_deleteEntry 3 (lit "z") 30 "id-z" true true true
           exampleStore).
  - reflexivity.
  - exact exampleStore_lacks_z.
  - rewrite exampleStore_history. simpl.
    intros [H|[H|[]]]; discriminate H.
  - rewrite exampleStore_history. vm_compute. lia.
  - exact exampleStore_ordered.
  - exact exampleStore_before_30.
Defined.

Lemma exampleStore_fresh : reachableVia 3 freshUuid exampleStore.
Proof.
  unfold exampleStore, run. cbn [fold_left fst snd].
  apply reachable_step; [|exact I].
  apply reachable_step.
  - apply reachable_step; [apply reachable_initial|].
    simpl. intros [].
  - vm_compute. intros [H|[]]. discriminate H.
Qed.

Lemma unique_ids_invariant_witness : NoDup (map id (history exampleStore)).
Proof.
  exact (proj1 (@unique_ids_invariant 3 exampleStore exampleStore_fresh)).
Defined.

Lemma texts_never_blank_witness :
  exists c, In c (text entryX) /\ isWhiteSpace c = false.
Proof.
  apply (@texts_never_blank 3 exampleStore entryX exampleStore_reachable).
  rewrite exampleStore_history. right. left. reflexivity.
Defined.


Lemma reload_after_save_witness :
  history (loadHistory (step 3 (DeleteEntry "id-x") false exampleStore))
  = history (loadHistory exampleStore).
Proof.
  exact (proj2 (@reload_after_save 3 (DeleteEntry "id-x") exampleStore
                  eq_refl)).
Defined.

Lemma error_is_sticky_witness :
  error (step 3 (DeleteEntry "id-x") true exampleStore) = error exampleStore.
Proof.
  exact (proj1 (@error_is_sticky 3 (DeleteEntry "id-x") true exampleStore
                  eq_refl)).
Defined.

Lemma failed_delete_changes_store :
  step 3 (DeleteEntry "id-x") false exampleStore <> exampleStore.
Proof.
  intros H. apply (f_equal (fun s => List.length (effects s))) in H.
  vm_compute in H. discriminate H.
Qed.

Lemma no_copy_banner_after_failed_save_witness :
  showCopiedNotification
    (handleCopyToClipboard (lit "y") true
       (withManager (step 3 (DeleteEntry "id-x") false exampleStore)
          examplePage))
  = false.
Proof.
  exact (proj1 (@no_copy_banner_after_failed_save 3 (DeleteEntry "id-x")
                  exampleStore (lit "y") true
                  (withManager (step 3 (DeleteEntry "id-x") false exampleStore)
                     examplePage)
                  eq_refl failed_delete_changes_store eq_refl)).
Defined.

Lemma readClipboardAndAdd_outcomes_witness :
  readClipboardAndAdd 3 Granted 30 "id-z" true true examplePage = examplePage.
Proof.
  apply (proj1 (proj2 (proj2
           (readClipboardAndAdd_outcomes 3 Granted 30 "id-z" true true
              examplePage))) entryX []).
  - reflexivity.
  - reflexivity.
Defined.

Lemma filteredHistory_sound_witness :
  In entryX (filteredHistory (fun t => t) examplePage).
Proof.
  apply (proj1 (proj2 (proj2 (proj2
           (filteredHistory_sound (fun t => t) examplePage))))).
  - right. left. reflexivity.
  - reflexivity.
Defined.

Lemma displayText_bounded_witness :
  displayText longEntry = firstn 150 (text longEntry) ++ [46; 46; 46]%N.
Proof.
  apply (proj1 (proj2 (proj2 (proj2 (displayText_bounded longEntry))))).
  vm_compute. repeat constructor.
Defined.

Lemma deleteClick_spares_pinned_witness :
  In entryY (history (deleteClick entryX true true exampleStore)).
Proof.
  apply (proj1 (@deleteClick_spares_pinned entryX true true exampleStore
                  exampleStore_ids
                  (or_intror (or_introl eq_refl)))).
  - left. reflexivity.
  - reflexivity.
Defined.

Lemma addEntry_promotes_to_top_witness :
  history (addEntry 3 (text entryX) 30 "id-z" true true exampleStore)
  = capUnpinned 3
      (withTimestamp entryX 30
         :: filter (fun x => negb (jsstring_eqb (text x) (text entryX)))
              (history exampleStore)).
Proof.
  apply (@addEntry_promotes_to_top 3 entryX 30 "id-z" true true exampleStore).
  - reflexivity.
  - rewrite exampleStore_history. right. left. reflexivity.
  - exact exampleStore_texts.
  - exact exampleStore_ordered.
  - exact exampleStore_before_30.
Defined.

Lemma togglePinEntry_notifies_new_state_witness :
  notifications (effects (togglePinEntry "id-y" true exampleStore))
  = notifications (effects exampleStore) ++ ["Item unpinned."].
Proof.
  exact (proj1 (@togglePinEntry_notifies_new_state "id-y" true exampleStore
                  entryY exampleStore_ids (or_introl eq_refl) eq_refl)).
Defined.
